(** * mdoc: a http.Handler that renders a directory of Markdown documents

    Shallow embedding of [mdoc.go] and [options.go] (package [mdoc]) and of
    the pieces of the Go standard library the handler calls ([path.Clean],
    [path.Base], [filepath.Ext], [strings.HasPrefix], [strings.HasSuffix],
    [os.IsNotExist], [os.IsPermission], [http.Error], [sort.Sort]).

    Go strings are byte sequences: they are modelled by [string], whose
    characters are the 256 values of [ascii].  Path functions of the Go
    library work on the bytes of their argument and are written here over
    [list ascii], with a [string] wrapper that carries the Go name. *)

From Stdlib Require Import List Bool Arith Lia ZArith.
From Stdlib Require Import Ascii String.
From Stdlib Require Import Sorting.Sorted Sorting.Permutation.
Import ListNotations.

Local Open Scope list_scope.
Local Open Scope string_scope.

(** ** Bytes and strings *)

Definition bytes := list ascii.

Definition b (s : string) : bytes := list_ascii_of_string s.
Definition str (l : bytes) : string := string_of_list_ascii l.

Definition is_slash (c : ascii) : bool := Ascii.eqb c "/".
Definition is_dot (c : ascii) : bool := Ascii.eqb c ".".
Arguments is_slash : simpl never.
Arguments is_dot : simpl never.

(** [strings.HasPrefix(s, prefix)] *)
Fixpoint has_prefix (s prefix : bytes) {struct prefix} : bool :=
  match prefix, s with
  | [], _ => true
  | _ :: _, [] => false
  | p :: prefix', c :: s' => Ascii.eqb c p && has_prefix s' prefix'
  end.

Definition HasPrefix (s prefix : string) : bool := has_prefix (b s) (b prefix).

(** [strings.HasSuffix(s, suffix)] *)
Definition HasSuffix (s suffix : string) : bool :=
  has_prefix (rev (b s)) (rev (b suffix)).

(** ** Package [path] *)

Module path.
Local Open Scope nat_scope.
Local Open Scope list_scope.

(** The element that starts at the head of [p]: the bytes up to the next
    slash, and what follows them ([for ; r < n && path[r] != '/'; r++]). *)
Fixpoint span_elem (p : bytes) : bytes * bytes :=
  match p with
  | [] => ([], [])
  | c :: p' =>
      if is_slash c then ([], p)
      else let (e, rest) := span_elem p' in (c :: e, rest)
  end.

(** [r == n || path[r] == '/'] for the suffix [path[r:]]. *)
Definition at_end_or_slash (p : bytes) : bool :=
  match p with
  | [] => true
  | c :: _ => is_slash c
  end.

(** The output buffer ([lazybuf]) is modelled by the bytes written so far,
    the most recent first: [out.w] is its length, [out.append(c)] conses,
    [out.w--] drops the head, and [out.index(out.w)] read just after a
    decrement is the byte that was dropped.

    [backtrack dotdot dropped out] is the loop
    [for out.w > dotdot && out.index(out.w) != '/' { out.w-- }]
    entered after a first [out.w--] that dropped [dropped]. *)
Fixpoint backtrack (dotdot : nat) (dropped : ascii) (out : bytes) : bytes :=
  match out with
  | [] => []
  | c :: out' =>
      if (dotdot <? List.length out) && negb (is_slash dropped)
      then backtrack dotdot c out'
      else out
  end.

(** The main loop [for r < n] of [Clean]; [p] is [path[r:]].  Every
    iteration consumes at least one byte, so [List.length p] iterations are
    enough ([clean_loop_fuel] below). *)
Fixpoint clean_loop (fuel : nat) (rooted : bool) (p : bytes) (out : bytes)
    (dotdot : nat) : bytes :=
  match fuel with
  | O => out
  | S fuel' =>
      match p with
      | [] => out
      | c :: p1 =>
          if is_slash c then
            (* empty path element *)
            clean_loop fuel' rooted p1 out dotdot
          else if is_dot c && at_end_or_slash p1 then
            (* . element *)
            clean_loop fuel' rooted p1 out dotdot
          else if is_dot c && match p1 with
                              | c1 :: p2 => is_dot c1 && at_end_or_slash p2
                              | [] => false
                              end then
            (* .. element: remove to last / *)
            let p2 := tl p1 in
            if dotdot <? List.length out then
              (* can backtrack *)
              match out with
              | d :: out' => clean_loop fuel' rooted p2 (backtrack dotdot d out') dotdot
              | [] => clean_loop fuel' rooted p2 out dotdot
              end
            else if negb rooted then
              (* cannot backtrack, but not rooted, so append .. element *)
              let out1 := if 0 <? List.length out then "/"%char :: out else out in
              let out2 := "."%char :: "."%char :: out1 in
              clean_loop fuel' rooted p2 out2 (List.length out2)
            else
              clean_loop fuel' rooted p2 out dotdot
          else
            (* real path element: add slash if needed, copy element *)
            let out1 :=
              if (rooted && negb (List.length out =? 1))
                 || (negb rooted && negb (List.length out =? 0))
              then "/"%char :: out else out in
            let (e, rest) := span_elem p in
            clean_loop fuel' rooted rest (rev e ++ out1) dotdot
      end
  end.

(** [path.Clean] on bytes. *)
Definition clean (p : bytes) : bytes :=
  match p with
  | [] => b "."
  | c :: p1 =>
      let rooted := is_slash c in
      let out :=
        if rooted
        then clean_loop (List.length p1) true p1 ["/"%char] 1
        else clean_loop (List.length p) false p [] 0 in
      match out with
      | [] => b "."
      | _ => rev out
      end
  end.

Definition Clean (p : string) : string := str (clean (b p)).

(** [path.Base] on bytes; the argument is processed from its end, so the
    function works on the reversed path. *)
Fixpoint strip_slashes (r : bytes) : bytes :=
  match r with
  | c :: r' => if is_slash c then strip_slashes r' else r
  | [] => []
  end.

Definition base (p : bytes) : bytes :=
  match p with
  | [] => b "."
  | _ =>
      (* strip trailing slashes *)
      let r := strip_slashes (rev p) in
      (* find the last element *)
      let e := fst (span_elem r) in
      (* if empty now, it had only slashes *)
      match e with
      | [] => b "/"
      | _ => rev e
      end
  end.

Definition Base (p : string) : string := str (base (b p)).

End path.

(** ** Package [path/filepath] (Unix: the separator is the slash) *)

Module filepath.
Local Open Scope list_scope.

(** [Ext] scans from the end for a dot, stopping at a separator; [r] is the
    reversed name and [acc] the bytes already passed, in name order. *)
Fixpoint ext_scan (r : bytes) (acc : bytes) : bytes :=
  match r with
  | [] => []
  | c :: r' =>
      if is_slash c then []
      else if is_dot c then c :: acc
      else ext_scan r' (c :: acc)
  end.

Definition ext (name : bytes) : bytes := ext_scan (rev name) [].

Definition Ext (name : string) : string := str (ext (b name)).

(** [filepath.Join]: the non-empty elements joined by the separator, then
    cleaned; the empty string when every element is empty. *)
Fixpoint join_elems (elems : list string) : string :=
  match elems with
  | [] => ""
  | e :: rest =>
      if String.eqb e "" then join_elems rest
      else match join_elems rest with
           | "" => e
           | r => (e ++ "/" ++ r)%string
           end
  end.

Definition Join (elems : list string) : string :=
  match join_elems elems with
  | "" => ""
  | s => path.Clean s
  end.

End filepath.

(** ** Errors *)

(** Go [error] values the handler can meet.  [ErrNotFound] is the package's
    sentinel ([errors.New] gives it an identity of its own: no other error
    is [==] to it); [Errno] is [syscall.Errno]; [ErrNotExist] and
    [ErrPermission] are the sentinels of package [os]; [PathError] and
    [SyscallError] are the wrappers the [os] calls return; [ErrorString]
    stands for any other error, such as a template execution failure. *)
Inductive error : Type :=
| ErrNotFound
| Errno (n : Z)
| ErrNotExist
| ErrPermission
| PathError (op path : string) (err : error)
| SyscallError (call : string) (err : error)
| ErrorString (msg : string).

Inductive result (A : Type) : Type :=
| Ok (a : A)
| Err (e : error).
Arguments Ok {A} a.
Arguments Err {A} e.

(** ** Package [os] *)

Module os.

Definition ENOENT : Z := 2.
Definition EACCES : Z := 13.
Definition EPERM : Z := 1.

(** [underlyingError] unwraps one level of the wrapping types. *)
Definition underlyingError (err : error) : error :=
  match err with
  | PathError _ _ e => e
  | SyscallError _ e => e
  | _ => err
  end.

Definition IsNotExist (err : error) : bool :=
  match underlyingError err with
  | ErrNotExist => true
  | Errno n => Z.eqb n ENOENT
  | _ => false
  end.

Definition IsPermission (err : error) : bool :=
  match underlyingError err with
  | ErrPermission => true
  | Errno n => Z.eqb n EACCES || Z.eqb n EPERM
  | _ => false
  end.

(** [os.FileInfo], as far as the handler reads it. *)
Record FileInfo : Type := {
  Name : string;
  IsDir : bool;
  ModTime : Z
}.

(** What the file system answers for one path: the outcome of [Stat],
    [Readdir(-1)] and [ioutil.ReadAll] on the opened file. *)
Record Node : Type := {
  node_stat : result FileInfo;
  node_readdir : result (list FileInfo);
  node_readall : result string
}.

(** An opened [*os.File]: [FName] is the name it was opened with, which is
    what [f.Name()] returns. *)
Record File : Type := {
  FName : string;
  node : Node
}.

(** The state of the file system: the outcome of [os.Open] per path. *)
Definition FS : Type := string -> result Node.

Definition Open (fs : FS) (name : string) : result File :=
  match fs name with
  | Ok nd => Ok {| FName := name; node := nd |}
  | Err e => Err e
  end.

End os.

(** ** Package [net/http] *)

Module http.

Definition StatusTemporaryRedirect : Z := 307.
Definition StatusForbidden : Z := 403.
Definition StatusNotFound : Z := 404.
Definition StatusInternalServerError : Z := 500.

Definition StatusText (code : Z) : string :=
  if Z.eqb code 200 then "OK"
  else if Z.eqb code 307 then "Temporary Redirect"
  else if Z.eqb code 403 then "Forbidden"
  else if Z.eqb code 404 then "Not Found"
  else if Z.eqb code 500 then "Internal Server Error"
  else "".

(** The request, as far as the handler reads it: [req.URL.Path] and
    [req.URL.RawQuery]. *)
Record Request : Type := {
  URL_Path : string;
  URL_RawQuery : string
}.

(** One operation on a [http.ResponseWriter]. *)
Inductive write : Type :=
| SetHeader (key value : string)
| WriteHeader (code : Z)
| WriteBody (body : string).

Definition newline : string := String (ascii_of_nat 10) "".

(** [http.Error(w, error, code)]: a plain-text reply, the message printed
    with [Fprintln]. *)
Definition Error (msg : string) (code : Z) : list write :=
  [ SetHeader "Content-Type" "text/plain; charset=utf-8";
    SetHeader "X-Content-Type-Options" "nosniff";
    WriteHeader code;
    WriteBody (msg ++ newline) ].

End http.

(** ** Package [sort] *)

Module sort.
Local Open Scope list_scope.

Section Sort.
Context {A : Type}.
Variable Less : A -> A -> bool.

(** The inner loop of [insertionSort]:
    [for j := i; j > a && data.Less(j, j-1); j-- { data.Swap(j, j-1) }].
    [sorted] holds the elements before position [i], the nearest first. *)
Fixpoint sink (x : A) (sorted : list A) : list A :=
  match sorted with
  | [] => [x]
  | y :: rest => if Less x y then y :: sink x rest else x :: sorted
  end.

Definition insertionSort (data : list A) : list A :=
  rev (fold_left (fun sorted x => sink x sorted) data []).

(** [sort.Sort(data)].  The library sorts short slices by insertion and
    long ones by a quicksort variant; both return the data ordered by
    [Less], and for an order in which distinct elements are never
    equivalent that list is unique ([sorted_unique] below), so the
    insertion sort stands for the call. *)
Definition Sort (data : list A) : list A := insertionSort data.

(** [data] is ordered by [Less]: no element is less than an earlier one. *)
Definition ordered (data : list A) : Prop :=
  StronglySorted (fun x y => Less y x = false) data.

(** The elements before the position being inserted, nearest first, are
    in descending order. *)
Definition descending (sorted : list A) : Prop :=
  StronglySorted (fun x y => Less x y = false) sorted.

End Sort.

End sort.

(** ** Package [mdoc]: data model *)

(** Layout represents the page data used by both IndexPage and
  DocumentPage. *)
Record Layout : Type := {
Layout_root : string;
Layout_path : string;
Layout_theme : string
}.

(** File represents a file for use in a HTML view. *)
Record File : Type := {
Name : string;
IsDir : bool
}.

(** IndexPage represents the data used to render a directory listing. *)
Record IndexPage : Type := {
IndexPage_Layout : Layout;
Files : list File
}.

(** DocumentPage represents the data used to render a document;
  [Content] is a [template.HTML]. *)
Record DocumentPage : Type := {
DocumentPage_Layout : Layout;
DocumentPage_Name : string;
Content : string
}.

(** The value handed to [Template.Execute]. *)
Inductive PageData : Type :=
| IndexData (v : IndexPage)
| DocumentData (v : DocumentPage).

(** Go's [([]byte, error)]: both components are returned as they are. *)
Definition rendered : Type := (string * option error)%type.

Definition indexRendererFunc : Type := IndexPage -> rendered.
Definition documentRendererFunc : Type := DocumentPage -> rendered.

(** [func(w http.ResponseWriter, req *http.Request, err error)]: the
  operations the function performs on [w]. *)
Definition errorHandlerFunc : Type := http.Request -> error -> list http.write.

(** handler represents a http.Handler that renders Markdown documents.
  A function field is [None] when it is [nil]. *)
Record handler : Type := {
dir : string;
root : string;
themeDir : string;
assetsDir : string;
indexRenderer : option indexRendererFunc;
documentRenderer : option documentRendererFunc;
errorHandler : option errorHandlerFunc
}.

(** Option describes a functional option for configuring the handler. *)
Definition Option : Type := handler -> handler.

(** What a request makes the handler do, in order: calls into the file
  system, calls of the three configured functions, and operations on the
  response.  [EvErrorHandler err ws] is one call [h.errorHandler(w, req,
  err)] during which the function performed [ws] on the response;
  [EvWrite] is an operation the handler itself performs;
  [EvServeContent] is the call of [http.ServeContent] on the response. *)
Inductive event : Type :=
| EvOpen (name : string)
| EvStat (name : string)
| EvReaddir (name : string)
| EvReadAll (name : string)
| EvIndexRenderer (v : IndexPage)
| EvDocumentRenderer (v : DocumentPage)
| EvErrorHandler (err : error) (ws : list http.write)
| EvWrite (w : http.write)
| EvServeContent (name : string) (modtime : Z) (content : string).

(** A computation that logs events and may panic (calling a nil function):
  the events so far, and the value unless it panicked. *)
Definition IO (A : Type) : Type := (list event * option A)%type.

Definition ret {A : Type} (a : A) : IO A := ([], Some a).

Definition bind {A B : Type} (m : IO A) (k : A -> IO B) : IO B :=
match m with
| (t, None) => (t, None)
| (t, Some a) => let (t', r) := k a in ((t ++ t')%list, r)
end.

Definition emit (e : event) : IO unit := ([e], Some tt).

Definition panic {A : Type} : IO A := ([], None).

Definition trace {A : Type} (m : IO A) : list event := fst m.

Notation "x <- m ;; k" := (bind m (fun x => k))
(at level 61, m at next level, right associativity).
Notation "m ;;; k" := (bind m (fun _ => k))
(at level 61, right associativity).

(** A call that may panic at construction time ([template.Must]). *)
Inductive panics (A : Type) : Type :=
| Returns (a : A)
| Panics.
Arguments Returns {A} a.
Arguments Panics {A}.

(** ** Package [mdoc]: options.go *)

(** defaultRoot is the default URL path. *)
Definition defaultRoot : string := "/".

(** defaultThemeDir is the relative path to the default theme. *)
Definition defaultThemeDir : string := "contrib/themes/default".

Definition Root (root' : string) : Option :=
fun h => {| dir := dir h; root := root'; themeDir := themeDir h;
            assetsDir := assetsDir h; indexRenderer := indexRenderer h;
            documentRenderer := documentRenderer h;
            errorHandler := errorHandler h |}.

Definition Theme (dir' : string) : Option :=
fun h => {| dir := dir h; root := root h; themeDir := dir';
            assetsDir := assetsDir h; indexRenderer := indexRenderer h;
            documentRenderer := documentRenderer h;
            errorHandler := errorHandler h |}.

Definition IndexRenderer (fn : option indexRendererFunc) : Option :=
fun h => {| dir := dir h; root := root h; themeDir := themeDir h;
            assetsDir := assetsDir h; indexRenderer := fn;
            documentRenderer := documentRenderer h;
            errorHandler := errorHandler h |}.

Definition DocumentRenderer (fn : option documentRendererFunc) : Option :=
fun h => {| dir := dir h; root := root h; themeDir := themeDir h;
            assetsDir := assetsDir h; indexRenderer := indexRenderer h;
            documentRenderer := fn;
            errorHandler := errorHandler h |}.

Definition ErrorHandler (fn : option errorHandlerFunc) : Option :=
fun h => {| dir := dir h; root := root h; themeDir := themeDir h;
            assetsDir := assetsDir h; indexRenderer := indexRenderer h;
            documentRenderer := documentRenderer h;
            errorHandler := fn |}.

(** The options the package exports; [handler] is not exported, so no
  other [Option] can be written outside the package. *)
Inductive exported : Option -> Prop :=
| exported_Root r : exported (Root r)
| exported_Theme d : exported (Theme d)
| exported_IndexRenderer fn : exported (IndexRenderer fn)
| exported_DocumentRenderer fn : exported (DocumentRenderer fn)
| exported_ErrorHandler fn : exported (ErrorHandler fn).

(** The status [defaultErrorHandler] chooses for [err]. *)
Definition defaultErrorCode (err : error) : Z :=
match err with
| ErrNotFound => http.StatusNotFound
| _ =>
    if os.IsNotExist err then http.StatusNotFound
    else if os.IsPermission err then http.StatusForbidden
    else http.StatusInternalServerError
end.

(** defaultErrorHandler responds to the request with a plain text error
  message. *)
Definition defaultErrorHandler : errorHandlerFunc :=
fun req err =>
  let code := defaultErrorCode err in
  http.Error (http.StatusText code) code.

(** ** Package [mdoc]: mdoc.go *)

Definition isMarkdownFile (name : string) : bool :=
let ext := filepath.Ext name in
existsb (fun e => String.eqb ext e) [".md"; ".markdown"].

(** [byName.Less], on the two elements compared. *)
Definition Less (vi vj : File) : bool :=
if IsDir vi && negb (IsDir vj) then true
else if negb (IsDir vi) && IsDir vj then false
else String.ltb (Name vi) (Name vj).

(** The loop of [getFiles] over the entries read from the directory. *)
Definition collect (fis : list os.FileInfo) : list File :=
fold_left
  (fun files fi =>
     let f := {| Name := os.Name fi; IsDir := os.IsDir fi |} in
     if HasPrefix (Name f) "." || (negb (IsDir f) && negb (isMarkdownFile (Name f)))
     then files
     else (files ++ [f])%list)
  fis [].

Definition getFiles (f : os.File) : IO (result (list File)) :=
emit (EvReaddir (os.FName f)) ;;;
match os.node_readdir (os.node f) with
| Err err => ret (Err err)
| Ok fis => ret (Ok (sort.Sort Less (collect fis)))
end.

Definition redirect (req : http.Request) (loc : string) : IO unit :=
let q := http.URL_RawQuery req in
let loc := if negb (String.eqb q "") then loc ++ "?" ++ q else loc in
emit (EvWrite (http.SetHeader "Location" loc)) ;;;
emit (EvWrite (http.WriteHeader http.StatusTemporaryRedirect)).

(** Lines 55 to 58 of [ServeHTTP]: the URL path, with a leading slash. *)
Definition request_url (req : http.Request) : string :=
let url := http.URL_Path req in
if negb (HasPrefix url "/") then "/" ++ url else url.

(** Lines 59 to 62 of [ServeHTTP]: the name of the file to open. *)
Definition resolve_name (h : handler) (url : string) : string :=
let name := dir h in
if negb (String.eqb url "/") then name ++ path.Clean url else name.

Section Mdoc.

(** The state of the file system while the request is served. *)
Variable fs : os.FS.

(** [gfm.Markdown], the Markdown to HTML conversion. *)
Variable gfm_Markdown : string -> string.

(** Package [html/template]: [ParseFiles] as a function ([None]) or as a
    method of a template, and [Execute] into a fresh buffer. *)
Variable Template : Type.
Variable template_ParseFiles : option Template -> string -> result Template.
Variable template_Execute : Template -> PageData -> result string.

Definition template_Must (r : result Template) : panics Template :=
  match r with
  | Ok t => Returns t
  | Err _ => Panics
  end.

(** defaultIndexRenderer returns a default IndexPage renderer. *)
Definition defaultIndexRenderer (themeDir : string) : panics indexRendererFunc :=
  match template_Must (template_ParseFiles None (filepath.Join [themeDir; "layout.html"])) with
  | Panics => Panics
  | Returns t =>
      match template_Must (template_ParseFiles (Some t) (filepath.Join [themeDir; "index.html"])) with
      | Panics => Panics
      | Returns t =>
          Returns (fun v =>
            match template_Execute t (IndexData v) with
            | Err err => ("", Some err)
            | Ok buf => (buf, None)
            end)
      end
  end.

(** defaultDocumentRenderer returns a the default DocumentPage renderer. *)
Definition defaultDocumentRenderer (themeDir : string) : panics documentRendererFunc :=
  match template_Must (template_ParseFiles None (filepath.Join [themeDir; "layout.html"])) with
  | Panics => Panics
  | Returns t =>
      match template_Must (template_ParseFiles (Some t) (filepath.Join [themeDir; "doc.html"])) with
      | Panics => Panics
      | Returns t =>
          Returns (fun v =>
            match template_Execute t (DocumentData v) with
            | Err err => ("", Some err)
            | Ok buf => (buf, None)
            end)
      end
  end.

(** New returns a http.Handler that renders Markdown documents.  The
    value returned by the source is a [ServeMux] that hands every path
    outside [/.mdoc/assets/] to the handler [h]; [New] here returns [h]. *)
Definition New (dir0 : string) (opts : list Option) : panics handler :=
  let dir0 := if String.eqb dir0 "" then "." else dir0 in
  let h := {| dir := dir0; root := defaultRoot; themeDir := defaultThemeDir;
              assetsDir := ""; indexRenderer := None;
              documentRenderer := None;
              errorHandler := Some defaultErrorHandler |} in
  let h := fold_left (fun h option => option h) opts h in
  match defaultIndexRenderer (themeDir h) with
  | Panics => Panics
  | Returns ir =>
      let h := IndexRenderer (Some ir) h in
      match defaultDocumentRenderer (themeDir h) with
      | Panics => Panics
      | Returns dr =>
          let h := DocumentRenderer (Some dr) h in
          (* h.assets() *)
          Returns {| dir := dir h; root := root h; themeDir := themeDir h;
                     assetsDir := filepath.Join [themeDir h; "assets"];
                     indexRenderer := indexRenderer h;
                     documentRenderer := documentRenderer h;
                     errorHandler := errorHandler h |}
      end
  end.

(** [os.Open], [f.Stat()] and [ioutil.ReadAll(f)], logged. *)
Definition os_Open (name : string) : IO (result os.File) :=
  emit (EvOpen name) ;;; ret (os.Open fs name).

Definition file_Stat (f : os.File) : IO (result os.FileInfo) :=
  emit (EvStat (os.FName f)) ;;; ret (os.node_stat (os.node f)).

Definition ioutil_ReadAll (f : os.File) : IO (result string) :=
  emit (EvReadAll (os.FName f)) ;;; ret (os.node_readall (os.node f)).

(** [h.errorHandler(w, req, err)] *)
Definition call_errorHandler (h : handler) (req : http.Request) (err : error) : IO unit :=
  match errorHandler h with
  | None => panic
  | Some fn => emit (EvErrorHandler err (fn req err))
  end.

(** [h.indexRenderer(v)] and [h.documentRenderer(v)] *)
Definition call_indexRenderer (h : handler) (v : IndexPage) : IO rendered :=
  match indexRenderer h with
  | None => panic
  | Some fn => emit (EvIndexRenderer v) ;;; ret (fn v)
  end.

Definition call_documentRenderer (h : handler) (v : DocumentPage) : IO rendered :=
  match documentRenderer h with
  | None => panic
  | Some fn => emit (EvDocumentRenderer v) ;;; ret (fn v)
  end.

Definition renderIndex (h : handler) (f : os.File) (path : string) : IO rendered :=
  r <- getFiles f ;;
  match r with
  | Err err => ret ("", Some err)
  | Ok files =>
      let v := {| IndexPage_Layout :=
                    {| Layout_root := root h; Layout_path := path; Layout_theme := "" |};
                  Files := files |} in
      call_indexRenderer h v
  end.

Definition renderDocument (h : handler) (f : os.File) (path : string) : IO rendered :=
  let name := os.FName f in
  if negb (isMarkdownFile name) then ret ("", Some ErrNotFound)
  else
    r <- ioutil_ReadAll f ;;
    match r with
    | Err err => ret ("", Some err)
    | Ok raw =>
        let v := {| DocumentPage_Layout :=
                      {| Layout_root := root h; Layout_path := path; Layout_theme := "" |};
                    DocumentPage_Name := name;
                    Content := gfm_Markdown raw |} in
        call_documentRenderer h v
    end.

(** The end of both rendering branches of [ServeHTTP]: lines 95 to 97
    (103 to 105), then line 107. *)
Definition respond (h : handler) (req : http.Request) (name : string)
    (fi : os.FileInfo) (r : rendered) : IO unit :=
  let (b, err) := r in
  (match err with
   | Some err => call_errorHandler h req err
   | None => ret tt
   end) ;;;
  emit (EvServeContent name (os.ModTime fi) b).

(** Lines 92 to 107 of [ServeHTTP]: what is done with the file [f]
    retained after the probe for [index.md]. *)
Definition serve_file (h : handler) (req : http.Request) (url name : string)
    (f : os.File) (fi : os.FileInfo) (isIndexPage : bool) : IO unit :=
  if os.IsDir fi then
    r <- renderIndex h f url ;;
    respond h req name fi r
  else if negb isIndexPage && HasSuffix url "/" then
    redirect req ("../" ++ path.Base url)
  else
    r <- renderDocument h f url ;;
    respond h req name fi r.

(** ServeHTTP implements the http.Handler interface. *)
Definition ServeHTTP (h : handler) (req : http.Request) : IO unit :=
  let url := request_url req in
  let name := resolve_name h url in
  r <- os_Open name ;;
  match r with
  | Err err => call_errorHandler h req err
  | Ok f =>
      r <- file_Stat f ;;
      match r with
      | Err err => call_errorHandler h req err
      | Ok fi =>
          if os.IsDir fi then
            if negb (HasSuffix url "/") then
              redirect req (path.Base url ++ "/")
            else
              let name := name ++ "/index.md" in
              r <- os_Open name ;;
              match r with
              | Ok ff =>
                  r <- file_Stat ff ;;
                  match r with
                  | Ok ffi => serve_file h req url name ff ffi true
                  | Err _ => serve_file h req url name f fi false
                  end
              | Err _ => serve_file h req url name f fi false
              end
          else serve_file h req url name f fi false
      end
  end.

End Mdoc.

(** The configuration after the options have run (lines 33 to 44 of
  [New]), before the renderers are assigned. *)
Definition configured (dir0 : string) (opts : list Option) : handler :=
fold_left (fun h option => option h) opts
  {| dir := if String.eqb dir0 "" then "." else dir0;
     root := defaultRoot; themeDir := defaultThemeDir;
     assetsDir := ""; indexRenderer := None; documentRenderer := None;
     errorHandler := Some defaultErrorHandler |}.

(** ** A small site, used to run the handler *)

Module Demo.

Definition enoent (name : string) : error := PathError "open" name (Errno os.ENOENT).

Definition regular (name : string) (content : string) : os.Node :=
{| os.node_stat := Ok {| os.Name := name; os.IsDir := false; os.ModTime := 1700000000 |};
   os.node_readdir := Err (SyscallError "readdirent" (Errno 20));
   os.node_readall := Ok content |}.

Definition directory (name : string) (entries : list os.FileInfo) : os.Node :=
{| os.node_stat := Ok {| os.Name := name; os.IsDir := true; os.ModTime := 1600000000 |};
   os.node_readdir := Ok entries;
   os.node_readall := Err (PathError "read" name (Errno 21)) |}.

Definition entry (name : string) (isdir : bool) : os.FileInfo :=
{| os.Name := name; os.IsDir := isdir; os.ModTime := 0 |}.

(** The directory [docs] of the specification's example, with a text file
  and a subdirectory [notes] that has an [index.md]. *)
Definition docs_entries : list os.FileInfo :=
[ entry "internal.md" false; entry ".draft.md" false; entry "notes.txt" false;
  entry "guide.md" false; entry "notes" true; entry "api" true ].

Definition fs : os.FS :=
fun name =>
  if String.eqb name "docs" then Ok (directory "docs" docs_entries)
  else if String.eqb name "docs/guide.md" then Ok (regular "guide.md" "# Guide")
  else if String.eqb name "docs/internal.md" then Ok (regular "internal.md" "internal")
  else if String.eqb name "docs/.draft.md" then Ok (regular ".draft.md" "draft")
  else if String.eqb name "docs/notes.txt" then Ok (regular "notes.txt" "plain text")
  else if String.eqb name "docs/api" then Ok (directory "api" [])
  else if String.eqb name "docs/notes" then Ok (directory "notes" [entry "index.md" false])
  else if String.eqb name "docs/notes/index.md" then Ok (regular "index.md" "# Notes")
  else Err (enoent name).

Definition gfm_Markdown (raw : string) : string := "<p>" ++ raw ++ "</p>".

(** A template engine that always loads, and renders a fixed frame. *)
Definition Template : Type := string.

Definition template_ParseFiles (t : option Template) (file : string) : result Template :=
Ok file.

Definition template_Execute (t : Template) (v : PageData) : result string :=
match v with
| IndexData _ => Ok ("theme index: " ++ t)
| DocumentData d => Ok ("theme document: " ++ Content d)
end.

Definition New := New Template template_ParseFiles template_Execute.
Definition ServeHTTP := ServeHTTP fs gfm_Markdown.

Definition customIndex : indexRendererFunc := fun _ => ("custom index", None).
Definition customDocument : documentRendererFunc := fun _ => ("custom document", None).

Definition get (p q : string) : http.Request :=
{| http.URL_Path := p; http.URL_RawQuery := q |}.

(** The handler [New("docs")]. *)
Definition h : handler :=
  match New "docs" [] with
  | Returns h => h
  | Panics => configured "docs" []
  end.

(** The handler [New("docs", opts...)] and the events of a request on it. *)
Definition run (opts : list Option) (req : http.Request) : list event :=
match New "docs" opts with
| Returns h => trace (ServeHTTP h req)
| Panics => []
end.

End Demo.

(** ** Vocabulary of the properties *)

Arguments path.Clean : simpl never.
Arguments path.Base : simpl never.
Arguments filepath.Ext : simpl never.
Arguments HasPrefix : simpl never.
Arguments HasSuffix : simpl never.
Arguments isMarkdownFile : simpl never.
Arguments request_url : simpl never.
Arguments resolve_name : simpl never.

(** The bytes of [l] contain no slash. *)
Definition slashfree (l : bytes) : Prop := Forall (fun c => is_slash c = false) l.

(** [strings.Split(p, "/")]: the segments of a path. *)
Fixpoint segments (p : bytes) : list bytes :=
match p with
| [] => [[]]
| c :: p' =>
    if is_slash c then [] :: segments p'
    else match segments p' with
         | s :: rest => (c :: s) :: rest
         | [] => [[c]]
         end
end%list.

Definition Segments (p : string) : list string := map str (segments (b p)).

(** The last segment of a path: what follows its last slash. *)
Definition last_segment (p : string) : string := last (Segments p) "".

(** Lexical cleaning of a path that starts with a slash, as the
    specification words it: the segments between slashes are taken in
    order; an empty segment (repeated separators) and a [.] segment are
    dropped, a [..] segment removes the segment kept last, if any, and any
    other segment is kept; the segments kept are written each behind one
    slash, and the path with none kept is the root. *)
Definition is_dot_elem (seg : bytes) : bool :=
  match seg with
  | [c] => is_dot c
  | _ => false
  end.

Definition is_dotdot_elem (seg : bytes) : bool :=
  match seg with
  | [c1; c2] => is_dot c1 && is_dot c2
  | _ => false
  end.

(** [kept] holds the segments kept so far, the last one first. *)
Definition resolve_step (kept : list bytes) (seg : bytes) : list bytes :=
  match seg with
  | [] => kept
  | _ =>
      if is_dot_elem seg then kept
      else if is_dotdot_elem seg then tl kept
      else seg :: kept
  end.

Fixpoint join_slash (segs : list bytes) : bytes :=
  match segs with
  | [] => []
  | s :: rest => "/"%char :: (s ++ join_slash rest)
  end%list.

Definition lexical_clean (p : bytes) : bytes :=
  match rev (fold_left resolve_step (segments p) []) with
  | [] => ["/"%char]
  | segs => join_slash segs
  end.

Definition LexicalClean (p : string) : string := str (lexical_clean (b p)).

(** The output buffer of [path.Clean] on a rooted path, for the segments
    kept so far: the bytes written, the most recent first. *)
Fixpoint rjoin (kept : list bytes) : bytes :=
  match kept with
  | [] => []
  | c :: rest => (rev c ++ "/"%char :: rjoin rest)
  end%list.

Definition outbuf (kept : list bytes) : bytes :=
  match kept with
  | [] => ["/"%char]
  | _ => rjoin kept
  end.

(** A segment [path.Clean] keeps: not empty, without slash, and neither
    [.] nor [..]. *)
Definition kept_segment (c : bytes) : Prop :=
  c <> [] /\ slashfree c /\ is_dot_elem c = false /\ is_dotdot_elem c = false.

(** Ascending order of names, byte by byte. *)
Definition name_le (x y : File) : Prop := String.leb (Name x) (Name y) = true.

(** The entries [getFiles] keeps, before sorting. *)
Definition listed (fis : list os.FileInfo) : list File :=
  filter
    (fun f => negb (HasPrefix (Name f) "." || (negb (IsDir f) && negb (isMarkdownFile (Name f)))))
    (map (fun fi => {| Name := os.Name fi; IsDir := os.IsDir fi |}) fis).

(** The reply of [http.Error] for a status and its phrase. *)
Definition plain_text_reply (code : Z) (phrase : string) : list http.write :=
[ http.SetHeader "Content-Type" "text/plain; charset=utf-8";
  http.SetHeader "X-Content-Type-Options" "nosniff";
  http.WriteHeader code;
  http.WriteBody (phrase ++ http.newline) ].

(** Events of the directory listing path. *)
Definition is_listing_event (e : event) : bool :=
match e with
| EvReaddir _ | EvIndexRenderer _ => true
| _ => false
end.

(** The location of a redirect, when the events are those of one. *)
Definition redirect_events (loc : string) : list event :=
[ EvWrite (http.SetHeader "Location" loc);
  EvWrite (http.WriteHeader 307) ].

(** What [redirect] appends to the location for the request's query. *)
Definition query_suffix (req : http.Request) : string :=
match http.URL_RawQuery req with
| "" => ""
| q => "?" ++ q
end.

(** ** Package [mdoc]: page helpers and the sort interface *)

(** [strings.TrimPrefix(s, prefix)] *)
Definition TrimPrefix (s prefix : string) : string :=
  if HasPrefix s prefix then str (skipn (List.length (b prefix)) (b s)) else s.

(** The loop of [path.Join] that fills [buf]: an element is appended, behind
    a slash when the buffer is not empty, unless the buffer and the element
    are both empty. *)
Fixpoint path_join_buf (buf : string) (elem : list string) : string :=
  match elem with
  | [] => buf
  | e :: rest =>
      if negb (String.eqb buf "") || negb (String.eqb e "") then
        let buf := if negb (String.eqb buf "") then buf ++ "/" else buf in
        path_join_buf (buf ++ e) rest
      else path_join_buf buf rest
  end.

(** [path.Join(elem...)] *)
Definition path_Join (elem : list string) : string :=
  let size := fold_left (fun size e => (size + String.length e)%nat) elem 0%nat in
  if Nat.eqb size 0 then "" else path.Clean (path_join_buf "" elem).

(** Dir returns the path of the current directory. *)
Definition Layout_Dir (v : Layout) : string :=
  "/" ++ TrimPrefix (Layout_path v) (Layout_root v).

(** StaticFile returns the path to an asset file. *)
Definition Layout_StaticFile (v : Layout) (name : string) : string :=
  path_Join [Layout_root v; ".mdoc/assets"; name].

(** DisplayName returns the file name with a forward slash appended for
    directories. *)
Definition DisplayName (f : File) : string :=
  if IsDir f then Name f ++ "/" else Name f.

(** [byName.Len] and [byName.Swap]; an index out of range panics
    ([None]). *)
Definition Len (v : list File) : nat := List.length v.

Fixpoint set_index (v : list File) (i : nat) (x : File) : list File :=
  match v, i with
  | [], _ => []
  | _ :: v', O => x :: v'
  | y :: v', S i' => y :: set_index v' i' x
  end.

Definition Swap (v : list File) (i j : nat) : option (list File) :=
  match nth_error v j, nth_error v i with
  | Some vj, Some vi => Some (set_index (set_index v i vj) j vi)
  | _, _ => None
  end.

(** ** Command [mdoc]: main.go *)

Module main.

(** The flags after [flag.Parse()]. *)
Record flags : Type := {
  addr : string;
  theme : string;
  help : bool
}.

Inductive stream : Type := Stdout | Stderr.

(** How [main] ends: the usage printed on a stream, with the exit code
    when [os.Exit] is called; a panic of [mdoc.New]; or the call of
    [http.ListenAndServe] with its address and handler. *)
Inductive outcome : Type :=
| Usage (w : stream) (exit : option Z)
| NewPanics
| ListenAndServe (address : string) (h : handler).

Section Main.
Variable Template : Type.
Variable template_ParseFiles : option Template -> string -> result Template.
Variable template_Execute : Template -> PageData -> result string.

Definition main (fl : flags) (args : list string) : outcome :=
  if help fl then Usage Stdout None
  else if (1 <? List.length args)%nat then Usage Stderr (Some 1%Z)
  else
    let dir := "." in
    let dir := if Nat.eqb (List.length args) 1 then nth 0 args "" else dir in
    match New Template template_ParseFiles template_Execute dir [Theme (theme fl)] with
    | Panics => NewPanics
    | Returns m => ListenAndServe ":3000" m
    end.

End Main.

End main.

(** ** Vocabulary of the further properties *)

Definition is_errorHandler_call (e : event) : bool :=
  match e with
  | EvErrorHandler _ _ => true
  | _ => false
  end.

Definition is_ServeContent (e : event) : bool :=
  match e with
  | EvServeContent _ _ _ => true
  | _ => false
  end.

Definition is_response_write (e : event) : bool :=
  match e with
  | EvWrite _ => true
  | _ => false
  end.

Definition is_Open (e : event) : bool :=
  match e with
  | EvOpen _ => true
  | _ => false
  end.

(** The events that follow the first call of the error handler. *)
Fixpoint after_errorHandler (t : list event) : list event :=
  match t with
  | [] => []
  | e :: t' => if is_errorHandler_call e then t' else after_errorHandler t'
  end.


(** The entry of a directory as [getFiles] records it. *)
Definition file_of (fi : os.FileInfo) : File :=
  {| Name := os.Name fi; IsDir := os.IsDir fi |}.

(** A site in which [index.md] is a directory. *)
Module DemoProbe.

Definition probe_fs : os.FS :=
  fun name =>
    if String.eqb name "docs"
    then Ok (Demo.directory "docs" [Demo.entry "index.md" true])
    else if String.eqb name "docs/index.md"
    then Ok (Demo.directory "index.md" [Demo.entry "inner.md" false])
    else Err (Demo.enoent name).

End DemoProbe.

(** * Properties *)

(** ** The library functions on sample paths *)

Example Clean_ex1 : path.Clean "/a/../../b//c/./d/" = "/b/c/d".
Proof. reflexivity. Qed.
Example Clean_ex2 : path.Clean "a/../../b/" = "../b".
Proof. reflexivity. Qed.
Example Clean_ex3 : path.Clean "/.." = "/".
Proof. reflexivity. Qed.
Example Clean_ex4 : path.Clean "/...//.x/..a/b.." = "/.../.x/..a/b..".
Proof. reflexivity. Qed.
Example Clean_ex5 : path.Clean "abc/def/../.." = ".".
Proof. reflexivity. Qed.
Example Clean_ex6 : path.Clean "../../abc/../x" = "../../x".
Proof. reflexivity. Qed.
(** The cases listed in the documentation of [path.Clean]. *)
Example Clean_doc :
  map path.Clean
    [ "a/c"; "a//c"; "a/c/."; "a/c/b/.."; "/../a/c"; "/../a/b/../././/c"; "" ]
  = [ "a/c"; "a/c"; "a/c"; "a/c"; "/a/c"; "/a/c"; "." ].
Proof. reflexivity. Qed.
(** The cases listed in the documentation of [path.Base] and
    [filepath.Ext]. *)
Example Base_doc :
  map path.Base [ "/foo/bar/baz.js"; "/foo/bar/baz"; "/foo/bar/baz/"; "dev.txt";
                  "../todo.txt"; ".."; "."; "/"; "" ]
  = [ "baz.js"; "baz"; "baz"; "dev.txt"; "todo.txt"; ".."; "."; "/"; "." ].
Proof. reflexivity. Qed.
Example Ext_doc :
  map filepath.Ext [ "index"; "index.js"; "main.test.js" ] = [ ""; ".js"; ".js" ].
Proof. reflexivity. Qed.
Example Base_ex1 : path.Base "/notes" = "notes".
Proof. reflexivity. Qed.
Example Base_ex2 : path.Base "/a/b.md//" = "b.md".
Proof. reflexivity. Qed.
Example Base_ex3 : path.Base "///" = "/".
Proof. reflexivity. Qed.
Example Ext_ex1 : filepath.Ext "docs/a.b/index.md" = ".md".
Proof. reflexivity. Qed.
Example Ext_ex2 : filepath.Ext "docs/a.b/index" = "".
Proof. reflexivity. Qed.
Example Ext_ex3 : filepath.Ext ".markdown" = ".markdown".
Proof. reflexivity. Qed.
Example Join_ex1 : filepath.Join ["contrib/themes/default"; "assets"] = "contrib/themes/default/assets".
Proof. reflexivity. Qed.

(** ** Strings and bytes *)

Lemma str_b (s : string) : str (b s) = s.
Proof. apply string_of_list_ascii_of_string. Qed.

Lemma b_str (l : bytes) : b (str l) = l.
Proof. apply list_ascii_of_string_of_list_ascii. Qed.

Lemma b_app (s t : string) : b (s ++ t) = (b s ++ b t)%list.
Proof.
  induction s as [|c s IH]; simpl.
  - reflexivity.
  - unfold b in *. simpl. now rewrite IH.
Qed.

Lemma str_app (l m : bytes) : str (l ++ m)%list = str l ++ str m.
Proof.
  induction l as [|c l IH]; simpl; [reflexivity|].
  unfold str in *. simpl. now rewrite IH.
Qed.

Lemma b_inj (s t : string) : b s = b t -> s = t.
Proof. intros H. rewrite <- (str_b s), <- (str_b t). now rewrite H. Qed.

Lemma string_app_assoc (s t u : string) : (s ++ t) ++ u = s ++ t ++ u.
Proof. induction s as [|c s IH]; simpl; [reflexivity | now rewrite IH]. Qed.

Lemma string_app_nil_r (s : string) : s ++ "" = s.
Proof. induction s as [|c s IH]; simpl; [reflexivity | now rewrite IH]. Qed.

Section BytesFacts.
Local Open Scope list_scope.

Lemma is_slash_true (c : ascii) : is_slash c = true <-> c = "/"%char.
Proof. unfold is_slash. apply Ascii.eqb_eq. Qed.

Lemma is_dot_true (c : ascii) : is_dot c = true <-> c = "."%char.
Proof. unfold is_dot. apply Ascii.eqb_eq. Qed.

Lemma segments_nonempty (p : bytes) : segments p <> [].
Proof.
  destruct p as [|c p]; simpl; [discriminate|].
  destruct (is_slash c); [discriminate|].
  destruct (segments p); discriminate.
Qed.

Lemma segments_slashfree (e : bytes) : slashfree e -> segments e = [e].
Proof.
  induction 1 as [|c e Hc He IH]; simpl; [reflexivity|].
  now rewrite Hc, IH.
Qed.

Lemma segments_app_slash (x y : bytes) :
  segments (x ++ "/"%char :: y) = (segments x ++ segments y)%list.
Proof.
  induction x as [|c x IH]; simpl.
  - reflexivity.
  - rewrite IH. destruct (is_slash c); [reflexivity|].
    destruct (segments x) eqn:E; [now apply segments_nonempty in E | reflexivity].
Qed.

Lemma Forall_segments_slashfree (p : bytes) : Forall slashfree (segments p).
Proof.
  induction p as [|c p IH]; simpl.
  - repeat constructor.
  - destruct (is_slash c) eqn:Hc.
    + constructor; [constructor | exact IH].
    + destruct (segments p) as [|s rest]; [repeat constructor; exact Hc|].
      inversion IH; subst. constructor; [constructor; assumption | assumption].
Qed.

(** A path without slash, or the part before its last slash and its last
    segment. *)
Lemma last_slash_split (p : bytes) :
  slashfree p \/
  exists pre seg, p = (pre ++ "/"%char :: seg)%list /\ slashfree seg.
Proof.
  induction p as [|c p [IH | (pre & seg & -> & Hseg)]].
  - left. constructor.
  - destruct (is_slash c) eqn:Hc.
    + right. exists [], p. apply is_slash_true in Hc. subst c. split; [reflexivity | exact IH].
    + left. constructor; assumption.
  - right. exists (c :: pre), seg. split; [reflexivity | exact Hseg].
Qed.

Lemma span_elem_slashfree (e rest : bytes) :
  slashfree e -> path.at_end_or_slash rest = true ->
  path.span_elem (e ++ rest) = (e, rest).
Proof.
  intros He Hr. induction He as [|c e Hc He IH]; simpl.
  - destruct rest as [|c rest]; [reflexivity|]. simpl in *. now rewrite Hr.
  - now rewrite Hc, IH.
Qed.

Lemma slashfree_rev (e : bytes) : slashfree e -> slashfree (rev e).
Proof. unfold slashfree. apply Forall_rev. Qed.

Lemma slashfree_app (x y : bytes) : slashfree x -> slashfree y -> slashfree (x ++ y).
Proof. unfold slashfree. intros. apply Forall_app. now split. Qed.

Lemma has_suffix_slash (p : bytes) :
  has_prefix (rev p) ["/"%char] = true <-> exists q, p = (q ++ ["/"%char])%list.
Proof.
  split.
  - destruct (rev p) as [|c r] eqn:E; simpl; [discriminate|].
    rewrite andb_true_r. intros Hc. apply Ascii.eqb_eq in Hc. subst c.
    exists (rev r). rewrite <- (rev_involutive p), E. reflexivity.
  - intros [q ->]. rewrite rev_app_distr. reflexivity.
Qed.

(** [path.Base] of a path that has a slash and does not end with one is
    what follows the last slash. *)
Lemma base_last_segment (pre seg : bytes) :
  slashfree seg -> seg <> [] ->
  path.base (pre ++ "/"%char :: seg) = seg.
Proof.
  intros Hs Hne. unfold path.base.
  destruct (pre ++ "/"%char :: seg)%list eqn:E; [now destruct pre|].
  rewrite <- E. clear E.
  rewrite rev_app_distr. simpl rev. rewrite <- !app_assoc. simpl.
  assert (Hstrip : forall r, slashfree (rev seg) ->
            path.strip_slashes (rev seg ++ r) = (rev seg ++ r)%list).
  { intros r Hr. destruct (rev seg) as [|c rs] eqn:Er.
    - apply (f_equal (@rev ascii)) in Er. rewrite rev_involutive in Er. now subst.
    - cbn [path.strip_slashes app]. inversion Hr; subst. now rewrite H1. }
  rewrite Hstrip by now apply slashfree_rev.
  rewrite span_elem_slashfree by (try apply slashfree_rev; auto).
  simpl. destruct (rev seg) eqn:Er.
  - apply (f_equal (@rev ascii)) in Er. rewrite rev_involutive in Er. now subst.
  - rewrite <- Er. apply rev_involutive.
Qed.

(** [path.Base] of a path that ends with one slash is the segment before
    that slash. *)
Lemma base_trailing_slash (pre seg : bytes) :
  slashfree seg -> seg <> [] ->
  path.base (pre ++ "/"%char :: seg ++ ["/"%char]) = seg.
Proof.
  intros Hs Hne. unfold path.base.
  destruct (pre ++ "/"%char :: seg ++ ["/"%char])%list eqn:E; [now destruct pre|].
  rewrite <- E. clear E.
  rewrite rev_app_distr. cbn [rev]. rewrite rev_app_distr. cbn [rev app].
  change (is_slash "/"%char) with true. cbv iota.
  destruct (rev seg) as [|c rs] eqn:Er.
  { apply (f_equal (@rev ascii)) in Er. rewrite rev_involutive in Er. now subst. }
  assert (Hrf : slashfree (c :: rs)) by (rewrite <- Er; now apply slashfree_rev).
  inversion Hrf as [|? ? Hc Hrs]; subst.
  rewrite <- !app_assoc. cbn [app path.strip_slashes]. rewrite Hc.
  change (is_slash "/"%char) with true. cbv iota.
  change (c :: rs ++ "/"%char :: rev pre) with ((c :: rs) ++ "/"%char :: rev pre).
  rewrite span_elem_slashfree by auto. cbn [fst].
  rewrite <- Er. apply rev_involutive.
Qed.

Lemma last_segments (pre seg : bytes) :
  slashfree seg -> last (segments (pre ++ "/"%char :: seg)) [] = seg.
Proof.
  intros Hs. rewrite segments_app_slash, (segments_slashfree seg Hs).
  apply last_last.
Qed.

End BytesFacts.

Lemma last_map {A B : Type} (f : A -> B) (l : list A) (d : A) :
  last (map f l) (f d) = f (last l d).
Proof.
  induction l as [|x l IH]; [reflexivity|].
  destruct l; [reflexivity | exact IH].
Qed.

Lemma request_url_rooted (req : http.Request) :
  HasPrefix (request_url req) "/" = true.
Proof.
  unfold request_url. destruct (HasPrefix (http.URL_Path req) "/") eqn:E; simpl.
  - exact E.
  - reflexivity.
Qed.

Lemma rooted_bytes (url : string) :
  HasPrefix url "/" = true -> exists p, b url = "/"%char :: p.
Proof.
  unfold HasPrefix. destruct (b url) as [|c p]; simpl; [discriminate|].
  rewrite andb_true_r. intros H. apply Ascii.eqb_eq in H. subst. now exists p.
Qed.

(** For a URL that starts with a slash and does not end with one,
    [path.Base] is the last segment. *)
Lemma Base_last_segment (url : string) :
  HasPrefix url "/" = true -> HasSuffix url "/" = false ->
  path.Base url = last_segment url.
Proof.
  intros Hp Hs. unfold path.Base, last_segment, Segments.
  change "" with (str []). rewrite last_map. f_equal.
  destruct (rooted_bytes url Hp) as [p Hb].
  destruct (last_slash_split (b url)) as [Hf | (pre & seg & E & Hseg)].
  - rewrite Hb in Hf. inversion Hf; subst. discriminate.
  - rewrite E. rewrite last_segments by assumption.
    apply base_last_segment; [assumption|].
    intros ->. unfold HasSuffix in Hs.
    assert (has_prefix (rev (b url)) ["/"%char] = true) as H.
    { apply has_suffix_slash. now exists pre. }
    change (rev (b "/")) with ["/"%char] in Hs. congruence.
Qed.

(** ** Construction: [New] *)

Section NewFacts.
Variable Template : Type.
Variable template_ParseFiles : option Template -> string -> result Template.
Variable template_Execute : Template -> PageData -> result string.

Local Abbreviation New := (New Template template_ParseFiles template_Execute).
Local Abbreviation defaultIndexRenderer :=
  (defaultIndexRenderer Template template_ParseFiles template_Execute).
Local Abbreviation defaultDocumentRenderer :=
  (defaultDocumentRenderer Template template_ParseFiles template_Execute).

(** Whatever the options, the handler [New] returns holds the two
    renderers built from the theme directory: the assignments of lines
    45 and 46 come after the options have run. *)
Lemma New_renderers (dir0 : string) (opts : list Option) (h : handler) :
  New dir0 opts = Returns h ->
  exists ir dr,
    defaultIndexRenderer (themeDir (configured dir0 opts)) = Returns ir /\
    defaultDocumentRenderer (themeDir (configured dir0 opts)) = Returns dr /\
    indexRenderer h = Some ir /\ documentRenderer h = Some dr /\
    errorHandler h = errorHandler (configured dir0 opts) /\
    dir h = dir (configured dir0 opts) /\
    root h = root (configured dir0 opts).
Proof.
  unfold New. fold (configured dir0 opts).
  destruct (defaultIndexRenderer _) as [ir|] eqn:Ei; [|discriminate].
  simpl. destruct (defaultDocumentRenderer _) as [dr|] eqn:Ed; [|discriminate].
  intros [= <-]. exists ir, dr. simpl. repeat split; assumption.
Qed.

Lemma exported_dir (o : Option) (h : handler) : exported o -> dir (o h) = dir h.
Proof. now destruct 1. Qed.

Lemma configured_dir (dir0 : string) (opts : list Option) :
  Forall exported opts ->
  dir (configured dir0 opts) = if String.eqb dir0 "" then "." else dir0.
Proof.
  unfold configured. generalize (if String.eqb dir0 "" then "." else dir0) as d.
  generalize defaultRoot, defaultThemeDir, "", (@None indexRendererFunc),
    (@None documentRendererFunc), (Some defaultErrorHandler).
  intros r t a i dc e d Hopts.
  change d with (dir {| dir := d; root := r; themeDir := t; assetsDir := a;
                        indexRenderer := i; documentRenderer := dc;
                        errorHandler := e |}) at 2.
  generalize {| dir := d; root := r; themeDir := t; assetsDir := a;
                indexRenderer := i; documentRenderer := dc; errorHandler := e |}.
  induction Hopts as [|o opts Ho _ IH]; intros h; simpl; [reflexivity|].
  now rewrite IH, exported_dir.
Qed.

(** C10. [New] called with the empty string as directory builds the
    handler it builds for ["."]: the two calls return the same value for
    every list of options, and with the options of the package the
    handler's directory is ["."]. *)
Theorem C10_New_empty_dir_is_dot (opts : list Option) :
  New "" opts = New "." opts /\
  (Forall exported opts ->
   forall h, New "" opts = Returns h -> dir h = ".").
Proof.
  split; [reflexivity|].
  intros Hopts h Hnew. apply New_renderers in Hnew.
  destruct Hnew as (ir & dr & _ & _ & _ & _ & _ & Hdir & _).
  rewrite Hdir. now rewrite configured_dir.
Qed.

End NewFacts.

(** ** The default error handler *)

Lemma IsPermission_not_IsNotExist (err : error) :
  os.IsPermission err = true -> err <> ErrNotFound /\ os.IsNotExist err = false.
Proof.
  unfold os.IsPermission, os.IsNotExist.
  destruct err as [ | n | | | op p e | c e | m ]; simpl; try discriminate;
    try (split; [discriminate | reflexivity]).
  - intros H. split; [discriminate|].
    apply orb_true_iff in H. unfold os.ENOENT, os.EACCES, os.EPERM in *.
    destruct H as [H|H]; apply Z.eqb_eq in H; subst; reflexivity.
  - destruct e; try discriminate; intros H; (split; [discriminate|]); try reflexivity.
    apply orb_true_iff in H. unfold os.ENOENT, os.EACCES, os.EPERM in *.
    destruct H as [H|H]; apply Z.eqb_eq in H; subst; reflexivity.
  - destruct e; try discriminate; intros H; (split; [discriminate|]); try reflexivity.
    apply orb_true_iff in H. unfold os.ENOENT, os.EACCES, os.EPERM in *.
    destruct H as [H|H]; apply Z.eqb_eq in H; subst; reflexivity.
Qed.

Lemma ErrNotFound_not_os (err : error) :
  err = ErrNotFound -> os.IsNotExist err = false /\ os.IsPermission err = false.
Proof. intros ->. split; reflexivity. Qed.

(** C7. The default error handler answers 404 for the sentinel
    [ErrNotFound] and for an error [os.IsNotExist] accepts, 403 for an error
    [os.IsPermission] accepts, and 500 for every other error; each reply is
    the plain-text reply of [http.Error] whose message is the status phrase
    alone. *)
Theorem C7_defaultErrorHandler_statuses (req : http.Request) (err : error) :
  (err = ErrNotFound \/ os.IsNotExist err = true ->
   defaultErrorHandler req err = plain_text_reply 404 "Not Found") /\
  (os.IsPermission err = true ->
   defaultErrorHandler req err = plain_text_reply 403 "Forbidden") /\
  (err <> ErrNotFound -> os.IsNotExist err = false -> os.IsPermission err = false ->
   defaultErrorHandler req err = plain_text_reply 500 "Internal Server Error").
Proof.
  unfold defaultErrorHandler, defaultErrorCode. repeat split.
  - intros [-> | H]; [reflexivity|]. rewrite H. now destruct err.
  - intros H. destruct (IsPermission_not_IsNotExist err H) as [Hne Hno].
    rewrite Hno, H. destruct err; [contradiction | reflexivity ..].
  - intros Hne Hno Hp. rewrite Hno, Hp. destruct err; [contradiction | reflexivity ..].
Qed.

Lemma C7_defaultErrorHandler_statuses_witness :
  defaultErrorHandler (Demo.get "/missing.md" "") (Demo.enoent "docs/missing.md")
    = plain_text_reply 404 "Not Found" /\
  defaultErrorHandler (Demo.get "/secret.md" "") (PathError "open" "docs/secret.md" (Errno os.EACCES))
    = plain_text_reply 403 "Forbidden" /\
  defaultErrorHandler (Demo.get "/" "") (ErrorString "template: no such field")
    = plain_text_reply 500 "Internal Server Error".
Proof.
  split; [|split].
  - apply (C7_defaultErrorHandler_statuses (Demo.get "/missing.md" "") (Demo.enoent "docs/missing.md")).
    right. reflexivity.
  - apply (C7_defaultErrorHandler_statuses (Demo.get "/secret.md" "")
             (PathError "open" "docs/secret.md" (Errno os.EACCES))).
    reflexivity.
  - apply (C7_defaultErrorHandler_statuses (Demo.get "/" "") (ErrorString "template: no such field")).
    + discriminate.
    + reflexivity.
    + reflexivity.
Defined.

(** ** Dispatch: [ServeHTTP] *)

Section HandlerFacts.
Variable fs : os.FS.
Variable gfm_Markdown : string -> string.

Local Abbreviation ServeHTTP := (ServeHTTP fs gfm_Markdown).
Local Abbreviation serve_file := (serve_file gfm_Markdown).
Local Abbreviation renderDocument := (renderDocument gfm_Markdown).

Lemma redirect_trace (req : http.Request) (loc : string) :
  trace (redirect req loc) = redirect_events (loc ++ query_suffix req).
Proof.
  unfold redirect, query_suffix, redirect_events.
  destruct (http.URL_RawQuery req) as [|c q]; simpl.
  - now rewrite string_app_nil_r.
  - reflexivity.
Qed.

Lemma trace_bind_some {A B : Type} (m : IO A) (k : A -> IO B) (t : list event) (a : A) :
  m = (t, Some a) -> trace (bind m k) = (t ++ trace (k a))%list.
Proof. intros ->. unfold bind, trace. simpl. now destruct (k a). Qed.

(** Unfolds the event-logging operations of the handler. *)
Ltac run_io :=
  cbn [bind emit ret panic trace fst snd app os.Open os.FName os.node
       os_Open file_Stat ioutil_ReadAll].

(** C3. A request whose URL opens as a directory and does not end with a
    slash is answered, after the open and the stat alone, by status 307
    with the location made of the last segment of the URL, one slash, and
    the query string behind a question mark when there is one. *)
Theorem C3_directory_without_slash_redirects
    (h : handler) (req : http.Request) (nd : os.Node) (fi : os.FileInfo) :
  let url := request_url req in
  let name := resolve_name h url in
  fs name = Ok nd -> os.node_stat nd = Ok fi -> os.IsDir fi = true ->
  HasSuffix url "/" = false ->
  trace (ServeHTTP h req) =
    [ EvOpen name; EvStat name;
      EvWrite (http.SetHeader "Location" (last_segment url ++ "/" ++ query_suffix req));
      EvWrite (http.WriteHeader 307) ].
Proof.
  intros url name Hfs Hst Hdir Hsuf.
  unfold ServeHTTP. fold url. fold name.
  unfold os_Open, os.Open. rewrite Hfs. run_io.
  rewrite Hst. run_io. rewrite Hdir, Hsuf. cbn [negb].
  pose proof (redirect_trace req (path.Base url ++ "/")) as Hr.
  unfold trace in Hr. destruct (redirect req (path.Base url ++ "/")) as [t r].
  cbn [fst] in *. rewrite Hr. unfold redirect_events.
  rewrite string_app_assoc.
  rewrite Base_last_segment by (try apply request_url_rooted; assumption).
  reflexivity.
Qed.

(** C4, as amended. A request whose URL ends with a slash and opens as a
    regular file is answered, after the open and the stat alone, by status
    307 with the location made of ["../"], [path.Base] of the URL, and the
    query string behind a question mark when there is one. *)
Theorem C4_file_with_slash_redirects
    (h : handler) (req : http.Request) (nd : os.Node) (fi : os.FileInfo) :
  let url := request_url req in
  let name := resolve_name h url in
  fs name = Ok nd -> os.node_stat nd = Ok fi -> os.IsDir fi = false ->
  HasSuffix url "/" = true ->
  trace (ServeHTTP h req) =
    [ EvOpen name; EvStat name;
      EvWrite (http.SetHeader "Location" ("../" ++ path.Base url ++ query_suffix req));
      EvWrite (http.WriteHeader 307) ].
Proof.
  intros url name Hfs Hst Hdir Hsuf.
  unfold ServeHTTP. fold url. fold name.
  unfold os_Open, os.Open. rewrite Hfs. run_io.
  rewrite Hst. run_io. rewrite Hdir. unfold serve_file. rewrite Hdir, Hsuf.
  cbn [negb andb].
  pose proof (redirect_trace req ("../" ++ path.Base url)) as Hr.
  unfold trace in Hr. destruct (redirect req ("../" ++ path.Base url)) as [t r].
  cbn [fst] in *. rewrite Hr. unfold redirect_events.
  now rewrite string_app_assoc.
Qed.

(** [renderDocument] on a name that is not a Markdown name: no event, and
    the sentinel. *)
Lemma renderDocument_not_markdown (h : handler) (f : os.File) (path : string) :
  isMarkdownFile (os.FName f) = false ->
  renderDocument h f path = ([], Some ("", Some ErrNotFound)).
Proof. intros H. unfold renderDocument. now rewrite H. Qed.

Lemma isMarkdownFile_false (name : string) :
  filepath.Ext name <> ".md" -> filepath.Ext name <> ".markdown" ->
  isMarkdownFile name = false.
Proof.
  intros H1 H2. unfold isMarkdownFile. cbn [existsb].
  apply String.eqb_neq in H1, H2. now rewrite H1, H2.
Qed.

(** C6. [renderDocument] on a file whose extension is neither [.md] nor
    [.markdown] returns the sentinel [ErrNotFound] and reads nothing (it
    logs no event), and the default error handler answers that sentinel
    with status 404. *)
Theorem C6_non_markdown_is_not_found
    (h : handler) (f : os.File) (path : string) (req : http.Request) :
  filepath.Ext (os.FName f) <> ".md" ->
  filepath.Ext (os.FName f) <> ".markdown" ->
  renderDocument h f path = ([], Some ("", Some ErrNotFound)) /\
  defaultErrorHandler req ErrNotFound = plain_text_reply 404 "Not Found".
Proof.
  intros H1 H2. split; [|reflexivity].
  apply renderDocument_not_markdown. now apply isMarkdownFile_false.
Qed.

(** What [respond] logs: at most one call of the error handler, then the
    call of [http.ServeContent]. *)
Lemma respond_trace (h : handler) (req : http.Request) (name : string)
    (fi : os.FileInfo) (r : rendered) :
  trace (respond h req name fi r) =
    match snd r, errorHandler h with
    | Some err, Some fn =>
        [EvErrorHandler err (fn req err); EvServeContent name (os.ModTime fi) (fst r)]
    | Some err, None => []
    | None, _ => [EvServeContent name (os.ModTime fi) (fst r)]
    end.
Proof.
  unfold respond, call_errorHandler. destruct r as [bs [err|]]; cbn [fst snd].
  - destruct (errorHandler h); reflexivity.
  - reflexivity.
Qed.

Lemma respond_no_listing (h : handler) (req : http.Request) (name : string)
    (fi : os.FileInfo) (r : rendered) :
  forallb (fun e => negb (is_listing_event e)) (trace (respond h req name fi r)) = true.
Proof.
  rewrite respond_trace.
  destruct (snd r), (errorHandler h); reflexivity.
Qed.

Lemma isMarkdownFile_index_md (name : string) :
  isMarkdownFile (name ++ "/index.md") = true.
Proof.
  unfold isMarkdownFile, filepath.Ext, filepath.ext.
  rewrite b_app, rev_app_distr. reflexivity.
Qed.

Lemma renderIndex_reads_directory {B : Type} (h : handler) (f : os.File)
    (path : string) (k : rendered -> IO B) :
  exists rest,
    trace (r <- renderIndex h f path ;; k r) = EvReaddir (os.FName f) :: rest.
Proof.
  unfold renderIndex, getFiles, call_indexRenderer.
  destruct (os.node_readdir (os.node f)) as [fis|e]; run_io.
  - destruct (indexRenderer h) as [fn|]; run_io.
    + destruct (k _) as [t r]. eexists. reflexivity.
    + eexists. reflexivity.
  - destruct (k _) as [t r]. eexists. reflexivity.
Qed.

(** C9. For a URL that ends with a slash and opens as a directory: when
    [index.md] in it opens as a regular file that can be read, the file is
    read and handed to the document renderer with the URL as the page's
    path, and no event of the listing path (reading the directory, calling
    the index renderer) occurs; when opening [index.md] fails, the handler
    goes on with [renderIndex] on the directory, which reads it. *)
Theorem C9_index_md_is_the_directory_document
    (h : handler) (req : http.Request) (nd : os.Node) (fi : os.FileInfo) :
  let url := request_url req in
  let name := resolve_name h url in
  let iname := name ++ "/index.md" in
  fs name = Ok nd -> os.node_stat nd = Ok fi -> os.IsDir fi = true ->
  HasSuffix url "/" = true ->
  (forall ind ifi raw fn,
     fs iname = Ok ind -> os.node_stat ind = Ok ifi -> os.IsDir ifi = false ->
     os.node_readall ind = Ok raw -> documentRenderer h = Some fn ->
     let v := {| DocumentPage_Layout :=
                   {| Layout_root := root h; Layout_path := url; Layout_theme := "" |};
                 DocumentPage_Name := iname;
                 Content := gfm_Markdown raw |} in
     trace (ServeHTTP h req) =
       ([ EvOpen name; EvStat name; EvOpen iname; EvStat iname;
          EvReadAll iname; EvDocumentRenderer v ]
        ++ trace (respond h req iname ifi (fn v)))%list /\
     forallb (fun e => negb (is_listing_event e)) (trace (ServeHTTP h req)) = true) /\
  (forall e,
     fs iname = Err e ->
     trace (ServeHTTP h req) =
       ([ EvOpen name; EvStat name; EvOpen iname ]
        ++ trace (r <- renderIndex h {| os.FName := name; os.node := nd |} url ;;
                  respond h req iname fi r))%list /\
     exists rest,
       trace (ServeHTTP h req) =
         ([ EvOpen name; EvStat name; EvOpen iname; EvReaddir name ] ++ rest)%list).
Proof.
  intros url name iname Hfs Hst Hdir Hsuf. split.
  - intros ind ifi raw fn Hifs Hist Hidir Hread Hfn v.
    assert (Ht : trace (ServeHTTP h req) =
       ([ EvOpen name; EvStat name; EvOpen iname; EvStat iname;
          EvReadAll iname; EvDocumentRenderer v ]
        ++ trace (respond h req iname ifi (fn v)))%list).
    { unfold ServeHTTP. fold url. fold name. fold iname.
      unfold os_Open, os.Open. rewrite Hfs, Hifs. run_io.
      rewrite Hst. run_io. rewrite Hdir, Hsuf. cbn [negb].
      run_io. rewrite Hist. run_io.
      unfold serve_file. rewrite Hidir. cbn [negb andb].
      unfold renderDocument. cbn [os.FName].
      unfold iname at 1. rewrite isMarkdownFile_index_md. fold iname. cbn [negb].
      run_io. rewrite Hread. run_io.
      unfold call_documentRenderer. rewrite Hfn. run_io. fold v.
      destruct (respond h req iname ifi (fn v)) as [t r]. reflexivity. }
    split; [exact Ht|].
    rewrite Ht. cbn [app forallb is_listing_event negb andb].
    apply respond_no_listing.
  - intros e Hifs.
    assert (Ht : trace (ServeHTTP h req) =
       ([ EvOpen name; EvStat name; EvOpen iname ]
        ++ trace (r <- renderIndex h {| os.FName := name; os.node := nd |} url ;;
                  respond h req iname fi r))%list).
    { unfold ServeHTTP. fold url. fold name. fold iname.
      unfold os_Open, os.Open. rewrite Hfs, Hifs. run_io.
      rewrite Hst. run_io. rewrite Hdir, Hsuf. cbn [negb].
      run_io.
      unfold serve_file. rewrite Hdir.
      destruct (r <- renderIndex h {| os.FName := name; os.node := nd |} url ;;
                respond h req iname fi r) as [t r].
      reflexivity. }
    split; [exact Ht|].
    destruct (renderIndex_reads_directory h {| os.FName := name; os.node := nd |} url
                (fun r => respond h req iname fi r)) as [rest Hrest].
    exists rest. rewrite Ht, Hrest. reflexivity.
Qed.

End HandlerFacts.

(** ** The handler on the small site *)

Lemma C3_directory_without_slash_redirects_witness :
  trace (Demo.ServeHTTP Demo.h (Demo.get "/notes" "a=1")) =
    [ EvOpen "docs/notes"; EvStat "docs/notes";
      EvWrite (http.SetHeader "Location" "notes/?a=1");
      EvWrite (http.WriteHeader 307) ].
Proof.
  exact (C3_directory_without_slash_redirects Demo.fs Demo.gfm_Markdown Demo.h
           (Demo.get "/notes" "a=1")
           (Demo.directory "notes" [Demo.entry "index.md" false])
           {| os.Name := "notes"; os.IsDir := true; os.ModTime := 1600000000 |}
           eq_refl eq_refl eq_refl eq_refl).
Defined.

(** C4, as stated, fails when the request has a query string: the URL
    [/guide.md/?a=1] ends with a slash and opens as a regular file, and the
    location of the redirect is ["../guide.md?a=1"], which is not ["../"]
    followed by the basename. *)
Lemma C4_location_carries_the_query :
  HasSuffix (request_url (Demo.get "/guide.md/" "a=1")) "/" = true /\
  Demo.fs (resolve_name Demo.h (request_url (Demo.get "/guide.md/" "a=1")))
    = Ok (Demo.regular "guide.md" "# Guide") /\
  trace (Demo.ServeHTTP Demo.h (Demo.get "/guide.md/" "a=1")) =
    [ EvOpen "docs/guide.md"; EvStat "docs/guide.md";
      EvWrite (http.SetHeader "Location" "../guide.md?a=1");
      EvWrite (http.WriteHeader 307) ] /\
  "../guide.md?a=1" <> "../" ++ path.Base (request_url (Demo.get "/guide.md/" "a=1")).
Proof.
  repeat split; try reflexivity. vm_compute. discriminate.
Qed.

Lemma C4_file_with_slash_redirects_witness :
  trace (Demo.ServeHTTP Demo.h (Demo.get "/guide.md/" "a=1")) =
    [ EvOpen "docs/guide.md"; EvStat "docs/guide.md";
      EvWrite (http.SetHeader "Location" "../guide.md?a=1");
      EvWrite (http.WriteHeader 307) ].
Proof.
  exact (C4_file_with_slash_redirects Demo.fs Demo.gfm_Markdown Demo.h
           (Demo.get "/guide.md/" "a=1")
           (Demo.regular "guide.md" "# Guide")
           {| os.Name := "guide.md"; os.IsDir := false; os.ModTime := 1700000000 |}
           eq_refl eq_refl eq_refl eq_refl).
Defined.

Lemma C6_non_markdown_is_not_found_witness :
  renderDocument Demo.gfm_Markdown Demo.h
    {| os.FName := "docs/notes.txt"; os.node := Demo.regular "notes.txt" "plain text" |}
    "/notes.txt"
    = ([], Some ("", Some ErrNotFound)) /\
  defaultErrorHandler (Demo.get "/notes.txt" "") ErrNotFound
    = plain_text_reply 404 "Not Found".
Proof.
  apply (C6_non_markdown_is_not_found Demo.gfm_Markdown Demo.h
           {| os.FName := "docs/notes.txt"; os.node := Demo.regular "notes.txt" "plain text" |}
           "/notes.txt" (Demo.get "/notes.txt" "")).
  - vm_compute. discriminate.
  - vm_compute. discriminate.
Defined.

Lemma C9_index_md_is_the_directory_document_witness :
  trace (Demo.ServeHTTP Demo.h (Demo.get "/notes/" "")) =
    [ EvOpen "docs/notes"; EvStat "docs/notes";
      EvOpen "docs/notes/index.md"; EvStat "docs/notes/index.md";
      EvReadAll "docs/notes/index.md";
      EvDocumentRenderer
        {| DocumentPage_Layout :=
             {| Layout_root := "/"; Layout_path := "/notes/"; Layout_theme := "" |};
           DocumentPage_Name := "docs/notes/index.md";
           Content := "<p># Notes</p>" |};
      EvServeContent "docs/notes/index.md" 1700000000 "theme document: <p># Notes</p>" ] /\
  trace (Demo.ServeHTTP Demo.h (Demo.get "/api/" "")) =
    [ EvOpen "docs/api"; EvStat "docs/api"; EvOpen "docs/api/index.md";
      EvReaddir "docs/api";
      EvIndexRenderer
        {| IndexPage_Layout :=
             {| Layout_root := "/"; Layout_path := "/api/"; Layout_theme := "" |};
           Files := [] |};
      EvServeContent "docs/api/index.md" 1600000000
        "theme index: contrib/themes/default/index.html" ].
Proof.
  split.
  - exact (proj1 (proj1 (C9_index_md_is_the_directory_document
             Demo.fs Demo.gfm_Markdown Demo.h (Demo.get "/notes/" "")
             (Demo.directory "notes" [Demo.entry "index.md" false])
             {| os.Name := "notes"; os.IsDir := true; os.ModTime := 1600000000 |}
             eq_refl eq_refl eq_refl eq_refl)
           (Demo.regular "index.md" "# Notes")
           {| os.Name := "index.md"; os.IsDir := false; os.ModTime := 1700000000 |}
           "# Notes"
           (fun v => ("theme document: " ++ Content v, None))
           eq_refl eq_refl eq_refl eq_refl eq_refl)).
  - exact (proj1 (proj2 (C9_index_md_is_the_directory_document
             Demo.fs Demo.gfm_Markdown Demo.h (Demo.get "/api/" "")
             (Demo.directory "api" [])
             {| os.Name := "api"; os.IsDir := true; os.ModTime := 1600000000 |}
             eq_refl eq_refl eq_refl eq_refl)
           (Demo.enoent "docs/api/index.md") eq_refl)).
Defined.

Lemma C10_New_empty_dir_is_dot_witness :
  Demo.New "" [Theme "themes/plain"; Root "/docs/"]
    = Demo.New "." [Theme "themes/plain"; Root "/docs/"] /\
  dir match Demo.New "" [Theme "themes/plain"; Root "/docs/"] with
      | Returns h => h
      | Panics => configured "" []
      end = ".".
Proof.
  split.
  - exact (proj1 (C10_New_empty_dir_is_dot Demo.Template Demo.template_ParseFiles
                    Demo.template_Execute [Theme "themes/plain"; Root "/docs/"])).
  - apply (proj2 (C10_New_empty_dir_is_dot Demo.Template Demo.template_ParseFiles
                    Demo.template_Execute [Theme "themes/plain"; Root "/docs/"])).
    + repeat constructor.
    + reflexivity.
Defined.

(** C1. [New] with the options [IndexRenderer] and [DocumentRenderer]
    returns a handler that holds the renderers of the theme, and a request
    served by it is rendered by them: the functions given in the options
    are never called. *)
Theorem C1_New_discards_the_renderer_options :
  exists h ir dr,
    Demo.New "docs" [ IndexRenderer (Some Demo.customIndex);
                      DocumentRenderer (Some Demo.customDocument) ] = Returns h /\
    indexRenderer h = Some ir /\ documentRenderer h = Some dr /\
    (forall v, ir v = ("theme index: contrib/themes/default/index.html", None)) /\
    (forall v, dr v = ("theme document: " ++ Content v, None)) /\
    (forall v, ir v <> Demo.customIndex v) /\
    (forall v, dr v <> Demo.customDocument v) /\
    trace (Demo.ServeHTTP h (Demo.get "/api/" "")) =
      [ EvOpen "docs/api"; EvStat "docs/api"; EvOpen "docs/api/index.md";
        EvReaddir "docs/api";
        EvIndexRenderer
          {| IndexPage_Layout :=
               {| Layout_root := "/"; Layout_path := "/api/"; Layout_theme := "" |};
             Files := [] |};
        EvServeContent "docs/api/index.md" 1600000000
          "theme index: contrib/themes/default/index.html" ] /\
    trace (Demo.ServeHTTP h (Demo.get "/guide.md" "")) =
      [ EvOpen "docs/guide.md"; EvStat "docs/guide.md"; EvReadAll "docs/guide.md";
        EvDocumentRenderer
          {| DocumentPage_Layout :=
               {| Layout_root := "/"; Layout_path := "/guide.md"; Layout_theme := "" |};
             DocumentPage_Name := "docs/guide.md";
             Content := "<p># Guide</p>" |};
        EvServeContent "docs/guide.md" 1700000000 "theme document: <p># Guide</p>" ].
Proof.
  eexists. eexists. eexists.
  split; [reflexivity|]. split; [reflexivity|]. split; [reflexivity|].
  split; [reflexivity|]. split; [reflexivity|].
  split; [intros v; discriminate|].
  split; [intros v; unfold Demo.customDocument; simpl; discriminate|].
  split; reflexivity.
Qed.

(** C2. A request for a file that is not a Markdown file: the error
    handler is called with [ErrNotFound], and after it has returned the
    handler calls [http.ServeContent] on the same response with an empty
    content: line 104 is not followed by a return. *)
Theorem C2_ServeContent_follows_the_error_handler :
  trace (Demo.ServeHTTP Demo.h (Demo.get "/notes.txt" "")) =
    [ EvOpen "docs/notes.txt"; EvStat "docs/notes.txt";
      EvErrorHandler ErrNotFound (plain_text_reply 404 "Not Found");
      EvServeContent "docs/notes.txt" 1700000000 "" ].
Proof. reflexivity. Qed.

(** ** Sorting *)

Section SortFacts.
Local Open Scope list_scope.
Context {A : Type}.
Variable less : A -> A -> bool.
Hypothesis less_asym : forall x y, less x y = true -> less y x = false.
Hypothesis less_negtrans :
  forall x y z, less x y = false -> less y z = false -> less x z = false.

Lemma sink_perm (x : A) (l : list A) : Permutation (sort.sink less x l) (x :: l).
Proof.
  induction l as [|y l IH]; simpl.
  - apply Permutation_refl.
  - destruct (less x y).
    + eapply Permutation_trans; [apply perm_skip, IH | apply perm_swap].
    + apply Permutation_refl.
Qed.

Local Abbreviation descending := (sort.descending less).

Lemma sink_descending (x : A) (l : list A) :
  descending l -> descending (sort.sink less x l).
Proof.
  unfold sort.descending. induction 1 as [|y l Hl IH Hy]; simpl.
  - repeat constructor.
  - destruct (less x y) eqn:E.
    + constructor; [exact IH|].
      eapply Permutation_Forall; [apply Permutation_sym, sink_perm|].
      constructor; [now apply less_asym | exact Hy].
    + constructor; [now constructor|].
      constructor; [exact E|].
      eapply Forall_impl; [|exact Hy]. intros z Hz. now apply less_negtrans with y.
Qed.

Lemma fold_sink_perm (data acc : list A) :
  Permutation (fold_left (fun sorted x => sort.sink less x sorted) data acc)
              (rev data ++ acc).
Proof.
  revert acc. induction data as [|x data IH]; intros acc; simpl.
  - apply Permutation_refl.
  - eapply Permutation_trans; [apply IH|].
    rewrite <- app_assoc. apply Permutation_app_head. simpl. apply sink_perm.
Qed.

Lemma fold_sink_descending (data acc : list A) :
  descending acc ->
  descending (fold_left (fun sorted x => sort.sink less x sorted) data acc).
Proof.
  revert acc. induction data as [|x data IH]; intros acc Hacc; simpl.
  - exact Hacc.
  - apply IH. now apply sink_descending.
Qed.

Lemma StronglySorted_snoc (R : A -> A -> Prop) (l : list A) (x : A) :
  StronglySorted R l -> Forall (fun y => R y x) l -> StronglySorted R (l ++ [x]).
Proof.
  induction 1 as [|y l Hl IH Hy]; intros Hx; simpl.
  - repeat constructor.
  - inversion Hx; subst. constructor; [now apply IH|].
    apply Forall_app. split; [exact Hy | now repeat constructor].
Qed.

Lemma descending_rev (l : list A) : descending l -> sort.ordered less (rev l).
Proof.
  unfold sort.descending, sort.ordered. induction 1 as [|y l Hl IH Hy]; simpl.
  - constructor.
  - apply StronglySorted_snoc; [exact IH|].
    apply Forall_rev. exact Hy.
Qed.

Lemma Sort_perm (data : list A) : Permutation (sort.Sort less data) data.
Proof.
  unfold sort.Sort, sort.insertionSort.
  eapply Permutation_trans; [apply Permutation_sym, Permutation_rev|].
  eapply Permutation_trans; [apply fold_sink_perm|].
  rewrite app_nil_r. apply Permutation_sym, Permutation_rev.
Qed.

Lemma Sort_ordered (data : list A) : sort.ordered less (sort.Sort less data).
Proof.
  unfold sort.Sort, sort.insertionSort.
  apply descending_rev, fold_sink_descending. constructor.
Qed.

(** When no two distinct elements are equivalent, the data ordered by
    [less] is one list: every sorting algorithm returns it. *)
Hypothesis less_antisym : forall x y, less x y = false -> less y x = false -> x = y.

Lemma sorted_unique (l1 l2 : list A) :
  sort.ordered less l1 -> sort.ordered less l2 -> Permutation l1 l2 -> l1 = l2.
Proof.
  unfold sort.ordered. intros H1. revert l2.
  induction H1 as [|x l1 Hl1 IH Hx]; intros l2 H2 Hp.
  - apply Permutation_nil in Hp. now subst.
  - destruct l2 as [|y l2]; [now apply Permutation_sym, Permutation_nil in Hp|].
    inversion H2 as [|? ? Hl2 Hy]; subst.
    assert (x = y) as ->.
    { assert (In x (y :: l2)) as Hin1 by (eapply Permutation_in; [exact Hp | now left]).
      assert (In y (x :: l1)) as Hin2
        by (eapply Permutation_in; [apply Permutation_sym, Hp | now left]).
      destruct Hin1 as [->|Hin1]; [reflexivity|].
      destruct Hin2 as [->|Hin2]; [reflexivity|].
      rewrite Forall_forall in Hx, Hy.
      apply less_antisym; [now apply Hy | now apply Hx]. }
    f_equal. apply IH; [exact Hl2|]. now apply Permutation_cons_inv with y.
Qed.

Lemma Sort_unique (data l : list A) :
  sort.ordered less l -> Permutation l data -> l = sort.Sort less data.
Proof.
  intros Hl Hp. apply sorted_unique; [exact Hl | apply Sort_ordered |].
  eapply Permutation_trans; [exact Hp | apply Permutation_sym, Sort_perm].
Qed.

End SortFacts.

(** ** The order of strings *)

Lemma ascii_compare_refl (c : ascii) : Ascii.compare c c = Eq.
Proof. unfold Ascii.compare. apply N.compare_refl. Qed.

Lemma ascii_compare_lt_trans (x y z : ascii) :
  Ascii.compare x y = Lt -> Ascii.compare y z = Lt -> Ascii.compare x z = Lt.
Proof.
  unfold Ascii.compare. rewrite !N.compare_lt_iff. apply N.lt_trans.
Qed.

Lemma string_compare_refl (s : string) : String.compare s s = Eq.
Proof.
  induction s as [|c s IH]; simpl; [reflexivity|].
  now rewrite ascii_compare_refl.
Qed.

Lemma string_compare_lt_trans (x y z : string) :
  String.compare x y = Lt -> String.compare y z = Lt -> String.compare x z = Lt.
Proof.
  revert y z. induction x as [|a x IH]; intros [|c y] [|d z]; simpl;
    try discriminate; try reflexivity.
  destruct (Ascii.compare a c) eqn:Eac; try discriminate.
  - apply Ascii.compare_eq_iff in Eac. subst c.
    destruct (Ascii.compare a d) eqn:Ead; try discriminate; try reflexivity.
    apply IH.
  - intros _. destruct (Ascii.compare c d) eqn:Ecd; try discriminate.
    + apply Ascii.compare_eq_iff in Ecd. subst d. now rewrite Eac.
    + now rewrite (ascii_compare_lt_trans _ _ _ Eac Ecd).
Qed.

Lemma string_ltb_asym (x y : string) : String.ltb x y = true -> String.ltb y x = false.
Proof.
  unfold String.ltb. rewrite (String.compare_antisym x y).
  destruct (String.compare y x); simpl; congruence.
Qed.

Lemma string_ltb_negtrans (x y z : string) :
  String.ltb x y = false -> String.ltb y z = false -> String.ltb x z = false.
Proof.
  unfold String.ltb. intros Hxy Hyz.
  destruct (String.compare x y) eqn:Exy; try discriminate.
  - apply String.compare_eq_iff in Exy. now subst.
  - destruct (String.compare y z) eqn:Eyz; try discriminate.
    + apply String.compare_eq_iff in Eyz. subst. now rewrite Exy.
    + assert (String.compare z x = Lt) as Hzx.
      { apply string_compare_lt_trans with y.
        - rewrite String.compare_antisym, Eyz. reflexivity.
        - rewrite String.compare_antisym, Exy. reflexivity. }
      rewrite String.compare_antisym, Hzx. reflexivity.
Qed.

Lemma string_ltb_antisym (x y : string) :
  String.ltb x y = false -> String.ltb y x = false -> x = y.
Proof.
  unfold String.ltb. rewrite (String.compare_antisym x y).
  destruct (String.compare y x) eqn:E; simpl; try discriminate.
  intros _ _. symmetry. now apply String.compare_eq_iff.
Qed.

Lemma string_ltb_false_leb (x y : string) :
  String.ltb y x = false -> String.leb x y = true.
Proof.
  unfold String.ltb, String.leb. rewrite (String.compare_antisym y x).
  destruct (String.compare x y); simpl; congruence.
Qed.

(** ** [byName]: directories first, then by name *)

Lemma Less_asym (x y : File) : Less x y = true -> Less y x = false.
Proof.
  unfold Less. destruct (IsDir x), (IsDir y); simpl; try congruence.
  all: apply string_ltb_asym.
Qed.

Lemma Less_negtrans (x y z : File) :
  Less x y = false -> Less y z = false -> Less x z = false.
Proof.
  unfold Less. destruct (IsDir x), (IsDir y), (IsDir z); simpl; try congruence.
  all: apply string_ltb_negtrans.
Qed.

Lemma Less_antisym (x y : File) : Less x y = false -> Less y x = false -> x = y.
Proof.
  unfold Less. destruct x as [nx dx], y as [ny dy]. simpl.
  destruct dx, dy; simpl; try congruence.
  all: intros H1 H2; f_equal; now apply string_ltb_antisym.
Qed.

(** ** Directory listings: [getFiles] *)

Lemma collect_from (fis : list os.FileInfo) (acc : list File) :
  fold_left
    (fun files fi =>
       let f := {| Name := os.Name fi; IsDir := os.IsDir fi |} in
       if HasPrefix (Name f) "." || (negb (IsDir f) && negb (isMarkdownFile (Name f)))
       then files
       else (files ++ [f])%list)
    fis acc = (acc ++ listed fis)%list.
Proof.
  revert acc. unfold listed. induction fis as [|fi fis IH]; intros acc; cbn [fold_left map filter].
  - now rewrite app_nil_r.
  - rewrite IH. cbn [Name IsDir].
    destruct (HasPrefix (os.Name fi) "." || _); cbn [negb].
    + reflexivity.
    + now rewrite <- app_assoc.
Qed.

Lemma collect_listed (fis : list os.FileInfo) : collect fis = listed fis.
Proof. unfold collect. now rewrite collect_from. Qed.

Lemma isMarkdownFile_true (name : string) :
  isMarkdownFile name = true ->
  filepath.Ext name = ".md" \/ filepath.Ext name = ".markdown".
Proof.
  unfold isMarkdownFile. cbn [existsb]. rewrite orb_false_r.
  intros H. apply orb_true_iff in H. destruct H as [H|H]; apply String.eqb_eq in H; auto.
Qed.

Lemma listed_visible (fis : list os.FileInfo) :
  Forall (fun x => HasPrefix (Name x) "." = false) (listed fis).
Proof.
  apply Forall_forall. intros x Hx. apply filter_In in Hx. destruct Hx as [_ Hx].
  apply negb_true_iff, orb_false_iff in Hx. tauto.
Qed.

Lemma listed_markdown (fis : list os.FileInfo) :
  Forall (fun x => IsDir x = false ->
                   filepath.Ext (Name x) = ".md" \/ filepath.Ext (Name x) = ".markdown")
         (listed fis).
Proof.
  apply Forall_forall. intros x Hx Hd. apply filter_In in Hx. destruct Hx as [_ Hx].
  apply negb_true_iff, orb_false_iff in Hx. destruct Hx as [_ Hx].
  rewrite Hd in Hx. simpl in Hx. apply negb_false_iff in Hx.
  now apply isMarkdownFile_true.
Qed.

Lemma ordered_dirs_first (l : list File) :
  sort.ordered Less l ->
  l = (filter (fun f => Bool.eqb (IsDir f) true) l
       ++ filter (fun f => Bool.eqb (IsDir f) false) l)%list.
Proof.
  unfold sort.ordered. induction 1 as [|x l Hl IH Hx]; simpl; [reflexivity|].
  destruct (IsDir x) eqn:Ex; simpl.
  - now rewrite <- IH.
  - assert (Hnone : filter (fun f => Bool.eqb (IsDir f) true) l = []).
    { clear IH Hl. induction l as [|y l IHl]; simpl; [reflexivity|].
      inversion Hx as [|? ? Hy Hrest]; subst.
      destruct (IsDir y) eqn:Ey; simpl.
      - unfold Less in Hy. rewrite Ey, Ex in Hy. discriminate.
      - now apply IHl. }
    assert (Hall : filter (fun f => Bool.eqb (IsDir f) false) l = l).
    { rewrite Hnone in IH. simpl in IH. now rewrite <- IH. }
    now rewrite Hnone, Hall.
Qed.

Lemma ordered_group_by_name (d : bool) (l : list File) :
  sort.ordered Less l ->
  StronglySorted name_le (filter (fun f => Bool.eqb (IsDir f) d) l).
Proof.
  unfold sort.ordered. induction 1 as [|x l Hl IH Hx]; simpl; [constructor|].
  destruct (Bool.eqb (IsDir x) d) eqn:Ex; [|exact IH].
  constructor; [exact IH|].
  apply Forall_forall. intros y Hy. apply filter_In in Hy. destruct Hy as [Hin Hy].
  rewrite Forall_forall in Hx. specialize (Hx y Hin).
  apply Bool.eqb_prop in Ex, Hy. unfold Less in Hx. rewrite Ex, Hy in Hx.
  unfold name_le. apply string_ltb_false_leb.
  destruct d; exact Hx.
Qed.

Lemma filter_group (d : bool) (l : list File) :
  Forall (fun f => IsDir f = d) (filter (fun f => Bool.eqb (IsDir f) d) l).
Proof.
  apply Forall_forall. intros x Hx. apply filter_In in Hx.
  now apply Bool.eqb_prop.
Qed.

(** What [getFiles] returns is the list of kept entries, ordered. *)
Lemma getFiles_ok (f : os.File) (t : list event) (files : list File) :
  getFiles f = (t, Some (Ok files)) ->
  exists fis, os.node_readdir (os.node f) = Ok fis /\
              files = sort.Sort Less (listed fis).
Proof.
  unfold getFiles. destruct (os.node_readdir (os.node f)) as [fis|e]; simpl.
  - intros [= _ <-]. exists fis. now rewrite collect_listed.
  - discriminate.
Qed.

(** C5. The files [getFiles] returns contain no name that starts with a
    dot and no file, other than a directory, whose extension is not [.md]
    or [.markdown]; they are the directories followed by the other files,
    each of the two groups in ascending order of names. *)
Theorem C5_getFiles_filtered_and_ordered
    (f : os.File) (t : list event) (files : list File) :
  getFiles f = (t, Some (Ok files)) ->
  Forall (fun x => HasPrefix (Name x) "." = false) files /\
  Forall (fun x => IsDir x = false ->
                   filepath.Ext (Name x) = ".md" \/ filepath.Ext (Name x) = ".markdown")
         files /\
  exists dirs regs,
    files = (dirs ++ regs)%list /\
    Forall (fun x => IsDir x = true) dirs /\
    Forall (fun x => IsDir x = false) regs /\
    StronglySorted name_le dirs /\
    StronglySorted name_le regs.
Proof.
  intros H. apply getFiles_ok in H. destruct H as (fis & _ & ->).
  pose proof (Sort_perm Less (listed fis)) as Hp.
  pose proof (Sort_ordered Less Less_asym Less_negtrans (listed fis)) as Ho.
  split; [|split].
  - eapply Permutation_Forall; [apply Permutation_sym, Hp | apply listed_visible].
  - eapply Permutation_Forall; [apply Permutation_sym, Hp | apply listed_markdown].
  - exists (filter (fun f => Bool.eqb (IsDir f) true) (sort.Sort Less (listed fis))),
           (filter (fun f => Bool.eqb (IsDir f) false) (sort.Sort Less (listed fis))).
    split; [now apply ordered_dirs_first|].
    split; [apply filter_group|]. split; [apply filter_group|].
    split; now apply ordered_group_by_name.
Qed.

(** The listing misses no kept entry, and does not depend on the sorting
    algorithm: it is the one ordered arrangement of the kept entries. *)
Lemma getFiles_complete (f : os.File) (t : list event) (files : list File) :
  getFiles f = (t, Some (Ok files)) ->
  exists fis, os.node_readdir (os.node f) = Ok fis /\
    Permutation files (listed fis) /\
    forall l, sort.ordered Less l -> Permutation l (listed fis) -> l = files.
Proof.
  intros H. apply getFiles_ok in H. destruct H as (fis & Hrd & ->).
  exists fis. split; [exact Hrd|]. split; [apply Sort_perm|].
  intros l Hl Hp.
  now apply (Sort_unique Less Less_asym Less_negtrans Less_antisym).
Qed.

Lemma C5_getFiles_filtered_and_ordered_witness :
  Forall (fun x => HasPrefix (Name x) "." = false)
    [ {| Name := "api"; IsDir := true |}; {| Name := "notes"; IsDir := true |};
      {| Name := "guide.md"; IsDir := false |}; {| Name := "internal.md"; IsDir := false |} ] /\
  Forall (fun x => IsDir x = false ->
                   filepath.Ext (Name x) = ".md" \/ filepath.Ext (Name x) = ".markdown")
    [ {| Name := "api"; IsDir := true |}; {| Name := "notes"; IsDir := true |};
      {| Name := "guide.md"; IsDir := false |}; {| Name := "internal.md"; IsDir := false |} ] /\
  exists dirs regs,
    [ {| Name := "api"; IsDir := true |}; {| Name := "notes"; IsDir := true |};
      {| Name := "guide.md"; IsDir := false |}; {| Name := "internal.md"; IsDir := false |} ]
      = (dirs ++ regs)%list /\
    Forall (fun x => IsDir x = true) dirs /\
    Forall (fun x => IsDir x = false) regs /\
    StronglySorted name_le dirs /\
    StronglySorted name_le regs.
Proof.
  exact (C5_getFiles_filtered_and_ordered
           {| os.FName := "docs"; os.node := Demo.directory "docs" Demo.docs_entries |}
           [EvReaddir "docs"]
           [ {| Name := "api"; IsDir := true |}; {| Name := "notes"; IsDir := true |};
             {| Name := "guide.md"; IsDir := false |}; {| Name := "internal.md"; IsDir := false |} ]
           eq_refl).
Defined.

(** ** [path.Clean] on rooted paths *)

Section CleanFacts.
Local Open Scope list_scope.

Lemma span_elem_spec (p : bytes) :
  p = fst (path.span_elem p) ++ snd (path.span_elem p) /\
  slashfree (fst (path.span_elem p)) /\
  path.at_end_or_slash (snd (path.span_elem p)) = true.
Proof.
  induction p as [|c p (IH1 & IH2 & IH3)]; simpl.
  - repeat split. constructor.
  - destruct (is_slash c) eqn:Hc; simpl.
    + repeat split; [constructor | exact Hc].
    + destruct (path.span_elem p) as [e rest]. simpl in *.
      repeat split; [now f_equal | now constructor | exact IH3].
Qed.

Lemma span_elem_empty (p : bytes) :
  path.at_end_or_slash p = true -> path.span_elem p = ([], p).
Proof.
  destruct p as [|c p]; simpl; [reflexivity|]. now intros ->.
Qed.

Lemma dot_not_slash (c : ascii) : is_dot c = true -> is_slash c = false.
Proof. intros H. apply is_dot_true in H. now subst. Qed.

(** The three tests of the loop on [path[r:]], read on the element that
    starts there. *)
Lemma classify_dot (c : ascii) (p1 : bytes) :
  is_slash c = false ->
  is_dot c && path.at_end_or_slash p1 = true ->
  path.span_elem (c :: p1) = ([c], p1) /\ is_dot_elem [c] = true.
Proof.
  intros Hc H. apply andb_true_iff in H. destruct H as [Hd He].
  simpl. rewrite Hc, (span_elem_empty p1 He). now split.
Qed.

Lemma classify_dotdot (c : ascii) (p1 : bytes) :
  is_slash c = false ->
  is_dot c && match p1 with
              | c1 :: p2 => is_dot c1 && path.at_end_or_slash p2
              | [] => false
              end = true ->
  exists c1, p1 = c1 :: tl p1 /\
    path.span_elem (c :: p1) = ([c; c1], tl p1) /\
    is_dot_elem [c; c1] = false /\ is_dotdot_elem [c; c1] = true.
Proof.
  intros Hc H. apply andb_true_iff in H. destruct H as [Hd H].
  destruct p1 as [|c1 p2]; [discriminate|].
  apply andb_true_iff in H. destruct H as [Hd1 He].
  exists c1. simpl. rewrite Hc, (dot_not_slash c1 Hd1), (span_elem_empty p2 He).
  rewrite Hd, Hd1. repeat split.
Qed.

Lemma classify_real (c : ascii) (p1 : bytes) :
  is_slash c = false ->
  is_dot c && path.at_end_or_slash p1 = false ->
  is_dot c && match p1 with
              | c1 :: p2 => is_dot c1 && path.at_end_or_slash p2
              | [] => false
              end = false ->
  is_dot_elem (fst (path.span_elem (c :: p1))) = false /\
  is_dotdot_elem (fst (path.span_elem (c :: p1))) = false /\
  fst (path.span_elem (c :: p1)) <> [].
Proof.
  intros Hc H1 H2. simpl. rewrite Hc.
  destruct (path.span_elem p1) as [e rest] eqn:Es. simpl.
  split; [|split; [|discriminate]].
  - destruct e as [|a e]; [|reflexivity].
    destruct (is_dot c); [|reflexivity]. simpl in H1.
    destruct p1 as [|c1 p2]; [discriminate|]. simpl in *.
    destruct (is_slash c1); [discriminate|].
    destruct (path.span_elem p2). discriminate.
  - destruct e as [|a [|a' e]]; try reflexivity.
    destruct (is_dot c); [|reflexivity]. simpl in *.
    destruct p1 as [|c1 p2]; [discriminate|]. simpl in Es.
    destruct (is_slash c1) eqn:Hc1; [discriminate|].
    destruct (path.span_elem p2) as [e2 rest2] eqn:Es2.
    inversion Es; subst.
    destruct (is_dot a); [|reflexivity]. simpl in H2.
    destruct p2 as [|c2 p3]; [discriminate|]. simpl in *.
    destruct (is_slash c2); [discriminate|].
    destruct (path.span_elem p3). discriminate.
Qed.

(** A segment followed by the end of the path or by a slash is one step
    of the resolution. *)
Lemma fold_segments_elem (e rest : bytes) (kept : list bytes) :
  slashfree e -> path.at_end_or_slash rest = true ->
  fold_left resolve_step (segments (e ++ rest)) kept =
  fold_left resolve_step (segments rest) (resolve_step kept e).
Proof.
  intros He Hr. destruct rest as [|c rest].
  - rewrite app_nil_r, (segments_slashfree e He). simpl.
    now destruct (resolve_step kept e).
  - simpl in Hr. apply is_slash_true in Hr. subst c.
    rewrite segments_app_slash, (segments_slashfree e He). simpl.
    reflexivity.
Qed.

Lemma rjoin_nil (kept : list bytes) : rjoin kept = [] -> kept = [].
Proof.
  destruct kept as [|c kept]; [reflexivity|]. simpl.
  intros H. now apply app_eq_nil in H.
Qed.

Lemma outbuf_length (kept : list bytes) :
  Forall kept_segment kept ->
  (List.length (outbuf kept) =? 1)%nat = match kept with [] => true | _ => false end.
Proof.
  destruct kept as [|c kept]; [reflexivity|]. intros H. inversion H as [|? ? (Hc & _) _]; subst.
  destruct c as [|a c]; [contradiction|].
  apply Nat.eqb_neq. cbn [outbuf rjoin]. rewrite length_app, length_rev. simpl. lia.
Qed.

Lemma backtrack_to_slash (x rest : bytes) (d : ascii) :
  slashfree x -> is_slash d = false ->
  path.backtrack 1 d (x ++ "/"%char :: rest) =
    match rest with
    | [] => ["/"%char]
    | _ => rest
    end.
Proof.
  intros Hx. revert d. induction Hx as [|a x Ha Hx IH]; intros d Hd.
  - cbn [app path.backtrack]. rewrite Hd. destruct rest as [|r0 rest]; [reflexivity|].
    replace (1 <? List.length ("/"%char :: r0 :: rest))%nat with true by reflexivity.
    cbn [negb andb path.backtrack].
    change (is_slash "/"%char) with true. cbn [negb]. now rewrite andb_false_r.
  - cbn [app path.backtrack]. rewrite Hd.
    replace (1 <? List.length (a :: x ++ "/"%char :: rest))%nat with true.
    + cbn [negb andb]. now apply IH.
    + symmetry. apply Nat.ltb_lt. cbn [List.length]. rewrite length_app. simpl. lia.
Qed.

Lemma outbuf_rjoin (kept : list bytes) :
  match rjoin kept with
  | [] => ["/"%char]
  | _ => rjoin kept
  end = outbuf kept.
Proof.
  destruct kept as [|c k]; [reflexivity|]. cbn [outbuf].
  destruct (rjoin (c :: k)) eqn:E; [|reflexivity].
  now apply rjoin_nil in E.
Qed.

Lemma resolve_step_kept (kept : list bytes) (seg : bytes) :
  Forall kept_segment kept -> slashfree seg ->
  Forall kept_segment (resolve_step kept seg).
Proof.
  intros Hk Hs. unfold resolve_step. destruct seg as [|c seg]; [exact Hk|].
  destruct (is_dot_elem (c :: seg)) eqn:E1; [exact Hk|].
  destruct (is_dotdot_elem (c :: seg)) eqn:E2.
  - destruct kept; [exact Hk | now inversion Hk].
  - constructor; [|exact Hk]. repeat split; try assumption. discriminate.
Qed.

Lemma fold_resolve_kept (segs kept : list bytes) :
  Forall slashfree segs -> Forall kept_segment kept ->
  Forall kept_segment (fold_left resolve_step segs kept).
Proof.
  intros Hs. revert kept. induction Hs as [|s segs Hs _ IH]; intros kept Hk; simpl.
  - exact Hk.
  - apply IH. now apply resolve_step_kept.
Qed.

(** The loop invariant of [path.Clean] on a rooted path: with the buffer
    holding the segments kept so far, the loop returns the buffer that
    holds the segments kept at the end of the path. *)
Lemma clean_loop_rooted (fuel : nat) (p : bytes) (kept : list bytes) :
  (List.length p <= fuel)%nat -> Forall kept_segment kept ->
  path.clean_loop fuel true p (outbuf kept) 1 =
    outbuf (fold_left resolve_step (segments p) kept).
Proof.
  revert p kept. induction fuel as [|fuel IH]; intros p kept Hlen Hk.
  - destruct p; [reflexivity | simpl in Hlen; lia].
  - destruct p as [|c p1]; [reflexivity|].
    cbn [path.clean_loop]. simpl in Hlen.
    destruct (is_slash c) eqn:Hc.
    { rewrite IH by (auto; lia). simpl. now rewrite Hc. }
    destruct (is_dot c && path.at_end_or_slash p1) eqn:H1.
    { destruct (classify_dot c p1 Hc H1) as [Hs He].
      pose proof (span_elem_spec (c :: p1)) as (Hsplit & Hfree & Hend).
      rewrite Hs in *. cbn [fst snd] in *.
      rewrite IH by (auto; lia).
      change (c :: p1) with ([c] ++ p1).
      rewrite fold_segments_elem by assumption.
      unfold resolve_step. now rewrite He. }
    destruct (is_dot c && match p1 with
                          | c1 :: p2 => is_dot c1 && path.at_end_or_slash p2
                          | [] => false
                          end) eqn:H2.
    { destruct (classify_dotdot c p1 Hc H2) as (c1 & Hp1 & Hs & He1 & He2).
      pose proof (span_elem_spec (c :: p1)) as (Hsplit & Hfree & Hend).
      rewrite Hs in *. cbn [fst snd] in *.
      assert (Hlen2 : (List.length (tl p1) <= fuel)%nat).
      { rewrite Hp1 in Hlen. simpl in Hlen. lia. }
      replace (segments (c :: p1)) with (segments ([c; c1] ++ tl p1))
        by now rewrite <- Hsplit.
      rewrite fold_segments_elem by assumption.
      assert (Hstep : resolve_step kept [c; c1] = tl kept).
      { unfold resolve_step. now rewrite He1, He2. }
      rewrite Hstep.
      destruct kept as [|comp kept'].
      - cbn [outbuf List.length Nat.ltb Nat.leb negb tl].
        apply (IH (tl p1) []); [exact Hlen2 | constructor].
      - inversion Hk as [|? ? (Hne & Hcf & _) Hk']; subst.
        cbn [tl]. cbn [outbuf rjoin].
        destruct (rev comp) as [|d rc] eqn:Er.
        { apply (f_equal (@rev ascii)) in Er. rewrite rev_involutive in Er. now subst. }
        assert (Hrf : slashfree (d :: rc)) by (rewrite <- Er; now apply slashfree_rev).
        inversion Hrf as [|? ? Hd Hrc]; subst.
        replace (1 <? List.length ((d :: rc) ++ "/"%char :: rjoin kept'))%nat with true.
        2:{ symmetry. apply Nat.ltb_lt. rewrite length_app. simpl. lia. }
        cbn [app]. rewrite backtrack_to_slash by assumption.
        rewrite outbuf_rjoin.
        apply IH; assumption. }
    destruct (classify_real c p1 Hc H1 H2) as (He1 & He2 & Hne).
    pose proof (span_elem_spec (c :: p1)) as (Hsplit & Hfree & Hend).
    destruct (path.span_elem (c :: p1)) as [e rest] eqn:Es. cbn [fst snd] in *.
    replace (segments (c :: p1)) with (segments (e ++ rest))
      by now rewrite <- Hsplit.
    rewrite fold_segments_elem by assumption.
    assert (Hstep : resolve_step kept e = e :: kept).
    { unfold resolve_step. rewrite He1, He2. destruct e; [contradiction | reflexivity]. }
    rewrite Hstep.
    assert (Hk2 : Forall kept_segment (e :: kept)).
    { constructor; [|exact Hk]. repeat split; assumption. }
    assert (Hlen2 : (List.length rest <= fuel)%nat).
    { apply (f_equal (@List.length ascii)) in Hsplit. rewrite length_app in Hsplit.
      simpl in Hsplit. destruct e; [contradiction|]. simpl in Hsplit. lia. }
    rewrite <- (IH rest (e :: kept) Hlen2 Hk2).
    f_equal. cbn [andb negb orb]. rewrite orb_false_r.
    rewrite outbuf_length by assumption.
    destruct kept as [|k kept']; reflexivity.
Qed.

Lemma join_slash_app (xs ys : list bytes) :
  join_slash (xs ++ ys) = join_slash xs ++ join_slash ys.
Proof.
  induction xs as [|x xs IH]; simpl; [reflexivity|].
  now rewrite IH, <- app_assoc.
Qed.

Lemma rev_rjoin (kept : list bytes) : rev (rjoin kept) = join_slash (rev kept).
Proof.
  induction kept as [|c kept IH]; simpl; [reflexivity|].
  rewrite rev_app_distr. simpl. rewrite IH, rev_involutive, join_slash_app.
  simpl. now rewrite <- app_assoc, app_nil_r.
Qed.

(** [path.Clean] of a rooted path is its lexical cleaning. *)
Lemma clean_rooted (p1 : bytes) :
  path.clean ("/"%char :: p1) = lexical_clean ("/"%char :: p1).
Proof.
  assert (Hloop : path.clean_loop (List.length p1) true p1 ["/"%char] 1 =
                  outbuf (fold_left resolve_step (segments p1) [])).
  { apply (clean_loop_rooted (List.length p1) p1 []); [lia | constructor]. }
  unfold path.clean, lexical_clean.
  change (is_slash "/"%char) with true. cbv beta zeta iota.
  rewrite Hloop. clear Hloop.
  cbn [segments]. change (is_slash "/"%char) with true. cbv iota.
  cbn [fold_left resolve_step].
  generalize (fold_left resolve_step (segments p1) []) as kept. intros kept.
  destruct kept as [|c kept']; [reflexivity|].
  cbn [outbuf].
  destruct (rjoin (c :: kept')) eqn:Er.
  { apply rjoin_nil in Er. discriminate. }
  rewrite <- Er, rev_rjoin.
  destruct (rev (c :: kept')) eqn:Erev; [|reflexivity].
  apply (f_equal (@rev bytes)) in Erev. rewrite rev_involutive in Erev.
  discriminate.
Qed.

Lemma segments_join_slash (s : bytes) (rest : list bytes) :
  slashfree s -> Forall slashfree rest ->
  segments (s ++ join_slash rest) = s :: rest.
Proof.
  intros Hs Hr. revert s Hs. induction Hr as [|s' rest Hs' Hr IH]; intros s Hs.
  - simpl. rewrite app_nil_r. now apply segments_slashfree.
  - cbn [join_slash]. rewrite segments_app_slash, (segments_slashfree s Hs).
    now rewrite IH.
Qed.

(** The segments of a lexically cleaned path: an empty one before the
    leading slash, then segments that are kept ones, or the empty one of
    the root. *)
Lemma segments_lexical_clean (p : bytes) :
  exists segs, segments (lexical_clean p) = [] :: segs /\
    (segs = [[]] \/ Forall kept_segment segs).
Proof.
  unfold lexical_clean.
  assert (Hk : Forall kept_segment (rev (fold_left resolve_step (segments p) []))).
  { apply Forall_rev, fold_resolve_kept; [apply Forall_segments_slashfree | constructor]. }
  destruct (rev (fold_left resolve_step (segments p) [])) as [|s rest].
  - exists [[]]. split; [reflexivity | now left].
  - exists (s :: rest). split; [|now right].
    cbn [join_slash segments]. change (is_slash "/"%char) with true. cbv iota.
    f_equal. inversion Hk as [|? ? (_ & Hs & _) Hrest]; subst.
    apply segments_join_slash; [exact Hs|].
    eapply Forall_impl; [|exact Hrest]. intros c (_ & Hc & _). exact Hc.
Qed.

End CleanFacts.

(** ** Path resolution *)

Lemma Segments_str (l : bytes) : Segments (str l) = map str (segments l).
Proof. unfold Segments. now rewrite b_str. Qed.

Lemma Clean_rooted (url : string) :
  HasPrefix url "/" = true -> path.Clean url = LexicalClean url.
Proof.
  intros H. destruct (rooted_bytes url H) as [p1 Hb].
  unfold path.Clean, LexicalClean. rewrite Hb. f_equal. apply clean_rooted.
Qed.

Lemma LexicalClean_rooted (url : string) : HasPrefix (LexicalClean url) "/" = true.
Proof.
  unfold HasPrefix, LexicalClean, lexical_clean. rewrite b_str.
  now destruct (rev (fold_left resolve_step (segments (b url)) [])).
Qed.

Lemma LexicalClean_segments (url : string) (s : string) :
  In s (Segments (LexicalClean url)) -> s = "" \/ kept_segment (b s).
Proof.
  unfold LexicalClean. rewrite Segments_str.
  destruct (segments_lexical_clean (b url)) as (segs & -> & Hsegs).
  intros Hin. apply in_map_iff in Hin. destruct Hin as (seg & <- & Hin).
  destruct Hin as [<- | Hin]; [now left|].
  destruct Hsegs as [-> | Hk].
  - destruct Hin as [<- | []]. now left.
  - right. rewrite b_str. rewrite Forall_forall in Hk. now apply Hk.
Qed.

Lemma trace_logged {A B : Type} (e : event) (a : A) (k : A -> IO B) :
  trace (x <- (emit e ;;; ret a) ;; k x) = e :: trace (k a).
Proof. unfold trace, bind, emit, ret. simpl. now destruct (k a). Qed.

(** C8. The URL is the request path, with a slash put before it when it
    has none.  The name the handler opens is the base directory when the
    URL is the root, and otherwise the base directory followed by
    [path.Clean] of the URL, which is the lexical cleaning of the URL: it
    starts with a slash and none of its segments is [..] (or [.]), so the
    name stays below the base directory.  The name is computed from the
    handler and the request alone, and opening it is the first thing the
    handler does with the file system. *)
Theorem C8_resolved_name_stays_below_dir
    (fs : os.FS) (gfm_Markdown : string -> string)
    (h : handler) (req : http.Request) :
  let url := request_url req in
  (HasPrefix (http.URL_Path req) "/" = true -> url = http.URL_Path req) /\
  (HasPrefix (http.URL_Path req) "/" = false -> url = "/" ++ http.URL_Path req) /\
  (url = "/" -> resolve_name h url = dir h) /\
  (url <> "/" ->
   resolve_name h url = dir h ++ path.Clean url /\
   path.Clean url = LexicalClean url /\
   HasPrefix (path.Clean url) "/" = true /\
   ~ In ".." (Segments (path.Clean url)) /\
   ~ In "." (Segments (path.Clean url))) /\
  exists rest,
    trace (ServeHTTP fs gfm_Markdown h req) = EvOpen (resolve_name h url) :: rest.
Proof.
  intros url.
  split; [|split; [|split; [|split]]].
  - intros H. unfold url, request_url. now rewrite H.
  - intros H. unfold url, request_url. now rewrite H.
  - intros H. unfold resolve_name. now rewrite H.
  - intros H.
    assert (Hc : path.Clean url = LexicalClean url)
      by apply Clean_rooted, request_url_rooted.
    split; [|split; [exact Hc | split; [|split]]].
    + unfold resolve_name. apply String.eqb_neq in H. now rewrite H.
    + rewrite Hc. apply LexicalClean_rooted.
    + rewrite Hc. intros Hin. apply LexicalClean_segments in Hin.
      destruct Hin as [Hin | (_ & _ & _ & Hin)]; discriminate.
    + rewrite Hc. intros Hin. apply LexicalClean_segments in Hin.
      destruct Hin as [Hin | (_ & _ & Hin & _)]; discriminate.
  - eexists. unfold ServeHTTP, os_Open. fold url. apply trace_logged.
Qed.

Lemma C8_resolved_name_stays_below_dir_witness :
  request_url (Demo.get "/api/../../../etc//./passwd" "") = "/api/../../../etc//./passwd" /\
  resolve_name Demo.h "/api/../../../etc//./passwd" = "docs" ++ "/etc/passwd" /\
  path.Clean "/api/../../../etc//./passwd" = LexicalClean "/api/../../../etc//./passwd" /\
  ~ In ".." (Segments (path.Clean "/api/../../../etc//./passwd")) /\
  request_url (Demo.get "notes" "") = "/" ++ "notes" /\
  resolve_name Demo.h "/" = "docs".
Proof.
  pose proof (C8_resolved_name_stays_below_dir Demo.fs Demo.gfm_Markdown Demo.h
                (Demo.get "/api/../../../etc//./passwd" "")) as (H1 & _ & _ & H4 & _).
  pose proof (C8_resolved_name_stays_below_dir Demo.fs Demo.gfm_Markdown Demo.h
                (Demo.get "notes" "")) as (_ & H2 & _).
  pose proof (C8_resolved_name_stays_below_dir Demo.fs Demo.gfm_Markdown Demo.h
                (Demo.get "/" "")) as (_ & _ & H3 & _).
  specialize (H1 eq_refl). specialize (H2 eq_refl). specialize (H3 eq_refl).
  assert (Hne : request_url (Demo.get "/api/../../../etc//./passwd" "") <> "/")
    by (vm_compute; discriminate).
  destruct (H4 Hne) as (Ha & Hb & _ & Hd & _).
  repeat split; assumption.
Defined.

(** The number of iterations given to the loop of [path.Clean] is enough:
    more iterations return the same bytes. *)
Lemma clean_loop_fuel_upto (n : nat) (rooted : bool) :
  forall (p : bytes) (fuel : nat) (out : bytes) (dotdot : nat),
  (List.length p <= n)%nat -> (List.length p <= fuel)%nat ->
  path.clean_loop fuel rooted p out dotdot =
  path.clean_loop (List.length p) rooted p out dotdot.
Proof.
  induction n as [|n IH]; intros p fuel out dotdot Hn Hlen.
  - destruct p; [now destruct fuel | simpl in Hn; lia].
  - destruct p as [|c p1]; [now destruct fuel|].
    destruct fuel as [|fuel]; [simpl in Hlen; lia|].
    simpl in Hlen, Hn. cbn [List.length path.clean_loop].
    assert (Hp1 : forall o d, path.clean_loop fuel rooted p1 o d =
                              path.clean_loop (List.length p1) rooted p1 o d).
    { intros. apply IH; lia. }
    assert (Htl : forall o d, path.clean_loop fuel rooted (tl p1) o d =
                              path.clean_loop (List.length p1) rooted (tl p1) o d).
    { intros. destruct p1 as [|c1 p2]; [now destruct fuel|]. cbn [tl].
      rewrite (IH p2) by (simpl in *; lia).
      symmetry. apply IH; simpl in *; lia. }
    destruct (is_slash c) eqn:Hc; [apply Hp1|].
    destruct (is_dot c && path.at_end_or_slash p1); [apply Hp1|].
    destruct (is_dot c && _).
    + cbv zeta. destruct (dotdot <? List.length out)%nat.
      * destruct out; apply Htl.
      * destruct (negb rooted); apply Htl.
    + pose proof (span_elem_spec (c :: p1)) as (Hsplit & _ & _).
      assert (Hne : fst (path.span_elem (c :: p1)) <> []).
      { simpl. rewrite Hc. now destruct (path.span_elem p1). }
      destruct (path.span_elem (c :: p1)) as [e rest]. cbn [fst snd] in *.
      assert (Hrest : (List.length rest <= List.length p1)%nat).
      { apply (f_equal (@List.length ascii)) in Hsplit. rewrite length_app in Hsplit.
        destruct e; [contradiction|]. simpl in Hsplit. lia. }
      rewrite (IH rest) by lia.
      symmetry. apply IH; lia.
Qed.

Lemma clean_loop_fuel (fuel : nat) (rooted : bool) (p out : bytes) (dotdot : nat) :
  (List.length p <= fuel)%nat ->
  path.clean_loop fuel rooted p out dotdot =
  path.clean_loop (List.length p) rooted p out dotdot.
Proof. intros H. now apply (clean_loop_fuel_upto (List.length p)). Qed.

(** * Further properties *)

(** ** Markdown names *)

Section ExtFacts.
Local Open Scope list_scope.

Lemma has_prefix_app (p r : bytes) : has_prefix (p ++ r) p = true.
Proof.
  induction p as [|c p IH]; simpl; [reflexivity|].
  now rewrite Ascii.eqb_refl, IH.
Qed.

Lemma has_prefix_split (s p : bytes) :
  has_prefix s p = true -> exists r, s = p ++ r.
Proof.
  revert s. induction p as [|c p IH]; intros s H.
  - now exists s.
  - destruct s as [|a s]; [discriminate|]. simpl in H.
    apply andb_true_iff in H. destruct H as [Ha Hs].
    apply Ascii.eqb_eq in Ha. subst a.
    destruct (IH s Hs) as [r ->]. now exists r.
Qed.

(** What [Ext] returns is empty or the end of the name. *)
Lemma ext_scan_suffix (r acc : bytes) :
  filepath.ext_scan r acc = [] \/
  exists k rest, r = k ++ rest /\ filepath.ext_scan r acc = rev k ++ acc.
Proof.
  revert acc. induction r as [|c r IH]; intros acc; simpl; [now left|].
  destruct (is_slash c); [now left|].
  destruct (is_dot c).
  - right. exists [c], r. split; reflexivity.
  - destruct (IH (c :: acc)) as [H | (k & rest & -> & H)]; [now left|].
    right. exists (c :: k), rest. split; [reflexivity|].
    rewrite H. simpl. now rewrite <- app_assoc.
Qed.

Lemma ext_is_suffix (name e : bytes) :
  filepath.ext name = e -> e <> [] -> has_prefix (rev name) (rev e) = true.
Proof.
  unfold filepath.ext. intros H Hne.
  destruct (ext_scan_suffix (rev name) []) as [H0 | (k & rest & Hr & Hk)].
  - congruence.
  - rewrite app_nil_r in Hk. rewrite <- H, Hk, rev_involutive, Hr.
    apply has_prefix_app.
Qed.

End ExtFacts.

(** X1. A name is a Markdown name exactly when it ends with [.md] or with
    [.markdown], in these very bytes. *)
Theorem isMarkdownFile_iff_suffix (name : string) :
  isMarkdownFile name = true <->
  HasSuffix name ".md" = true \/ HasSuffix name ".markdown" = true.
Proof.
  split.
  - intros H. apply isMarkdownFile_true in H. unfold filepath.Ext in H.
    destruct H as [H | H]; [left | right]; unfold HasSuffix;
      apply (f_equal b) in H; rewrite b_str in H;
      apply (ext_is_suffix _ _ H); discriminate.
  - unfold HasSuffix, isMarkdownFile, filepath.Ext, filepath.ext.
    intros [H | H]; apply has_prefix_split in H; destruct H as [r Hr]; rewrite Hr;
      reflexivity.
Qed.

Lemma isMarkdownFile_iff_suffix_witness :
  isMarkdownFile "docs/notes/index.md" = true /\
  (HasSuffix "README.markdown" ".md" = true \/
   HasSuffix "README.markdown" ".markdown" = true).
Proof.
  split.
  - apply (proj2 (isMarkdownFile_iff_suffix "docs/notes/index.md")).
    left. reflexivity.
  - apply (proj1 (isMarkdownFile_iff_suffix "README.markdown")). reflexivity.
Defined.

(** ** The order of [byName] *)

Lemma string_ltb_irrefl (x : string) : String.ltb x x = false.
Proof. unfold String.ltb. now rewrite string_compare_refl. Qed.

Lemma string_ltb_trans (x y z : string) :
  String.ltb x y = true -> String.ltb y z = true -> String.ltb x z = true.
Proof.
  unfold String.ltb. intros Hxy Hyz.
  destruct (String.compare x y) eqn:Exy; try discriminate.
  destruct (String.compare y z) eqn:Eyz; try discriminate.
  now rewrite (string_compare_lt_trans _ _ _ Exy Eyz).
Qed.

(** X2. [Less] is a strict total order on files: no file is less than
    itself, the relation is transitive, and of two different files exactly
    one is less than the other. *)
Theorem Less_strict_total_order :
  (forall x, Less x x = false) /\
  (forall x y z, Less x y = true -> Less y z = true -> Less x z = true) /\
  (forall x y, Less x y = true -> Less y x = false) /\
  (forall x y, x <> y -> Less x y = true \/ Less y x = true).
Proof.
  repeat split.
  - intros x. unfold Less. destruct (IsDir x); simpl; apply string_ltb_irrefl.
  - intros x y z. unfold Less.
    destruct (IsDir x), (IsDir y), (IsDir z); simpl; try congruence;
      apply string_ltb_trans.
  - apply Less_asym.
  - intros x y Hne.
    destruct (Less x y) eqn:Exy; [now left|].
    destruct (Less y x) eqn:Eyx; [now right|].
    exfalso. apply Hne. now apply Less_antisym.
Qed.

Lemma Less_strict_total_order_witness :
  Less {| Name := "zoo"; IsDir := true |} {| Name := "b.md"; IsDir := false |} = true /\
  Less {| Name := "b.md"; IsDir := false |} {| Name := "zoo"; IsDir := true |} = false.
Proof.
  split.
  - apply (proj1 (proj2 Less_strict_total_order)
             {| Name := "zoo"; IsDir := true |} {| Name := "a.md"; IsDir := false |}
             {| Name := "b.md"; IsDir := false |}); reflexivity.
  - apply (proj1 (proj2 (proj2 Less_strict_total_order))
             {| Name := "zoo"; IsDir := true |} {| Name := "b.md"; IsDir := false |}).
    reflexivity.
Defined.

(** ** Directory listings, further *)

Lemma listed_perm (fis fis' : list os.FileInfo) :
  Permutation fis fis' -> Permutation (listed fis) (listed fis').
Proof.
  intros H. unfold listed.
  induction H as [|x l l' H IH|x y l|l l' l'' H1 IH1 H2 IH2]; simpl.
  - constructor.
  - destruct (negb _); [now constructor | exact IH].
  - destruct (negb _), (negb _); try apply Permutation_refl. apply perm_swap.
  - now apply Permutation_trans with (2 := IH2).
Qed.

(** X3. The listing does not depend on the order in which the directory
    returns its entries. *)
Theorem getFiles_order_independent
    (f f' : os.File) (fis fis' : list os.FileInfo) :
  os.node_readdir (os.node f) = Ok fis ->
  os.node_readdir (os.node f') = Ok fis' ->
  Permutation fis fis' ->
  snd (getFiles f) = snd (getFiles f').
Proof.
  intros H H' Hp. unfold getFiles. rewrite H, H'. cbn. do 2 f_equal.
  rewrite !collect_listed.
  symmetry. apply (Sort_unique Less Less_asym Less_negtrans Less_antisym).
  - apply (Sort_ordered Less Less_asym Less_negtrans).
  - eapply Permutation_trans; [apply Sort_perm|].
    apply Permutation_sym, listed_perm, Hp.
Qed.

Lemma getFiles_order_independent_witness :
  snd (getFiles {| os.FName := "docs"; os.node := Demo.directory "docs" Demo.docs_entries |})
  = snd (getFiles {| os.FName := "docs";
                     os.node := Demo.directory "docs" (rev Demo.docs_entries) |}).
Proof.
  apply (getFiles_order_independent _ _ Demo.docs_entries (rev Demo.docs_entries)).
  - reflexivity.
  - reflexivity.
  - apply Permutation_rev.
Defined.

(** X4. A file is listed exactly when the directory returned an entry for
    it whose name does not start with a dot and that is a directory or has
    a Markdown name; the listing has as many files as there are such
    entries. *)
Theorem getFiles_lists_exactly_the_visible
    (f : os.File) (t : list event) (files : list File) (fis : list os.FileInfo) :
  os.node_readdir (os.node f) = Ok fis ->
  getFiles f = (t, Some (Ok files)) ->
  (forall x, In x files <->
     exists fi, In fi fis /\ x = file_of fi /\
       HasPrefix (os.Name fi) "." = false /\
       (os.IsDir fi = true \/ isMarkdownFile (os.Name fi) = true)) /\
  List.length files =
    List.length (filter (fun fi => negb (HasPrefix (os.Name fi) ".")
                                   && (os.IsDir fi || isMarkdownFile (os.Name fi))) fis).
Proof.
  intros Hrd H. apply getFiles_ok in H. destruct H as (fis0 & Hrd0 & ->).
  rewrite Hrd in Hrd0. injection Hrd0 as <-.
  pose proof (Sort_perm Less (listed fis)) as Hp.
  split.
  - intros x. split.
    + intros Hin. apply (Permutation_in _ Hp) in Hin.
      unfold listed in Hin. apply filter_In in Hin. destruct Hin as [Hin Hk].
      apply in_map_iff in Hin. destruct Hin as (fi & <- & Hfi).
      exists fi. split; [exact Hfi|]. split; [reflexivity|].
      cbn [Name IsDir] in Hk. apply negb_true_iff, orb_false_iff in Hk.
      destruct Hk as [Hh Hm]. split; [exact Hh|].
      destruct (os.IsDir fi); [now left|]. right.
      simpl in Hm. now apply negb_false_iff in Hm.
    + intros (fi & Hfi & -> & Hh & Hm).
      apply (Permutation_in _ (Permutation_sym Hp)).
      unfold listed. apply filter_In. split.
      * apply in_map_iff. now exists fi.
      * unfold file_of. cbn [Name IsDir]. rewrite Hh. simpl.
        destruct Hm as [-> | ->]; [reflexivity|].
        destruct (os.IsDir fi); reflexivity.
  - rewrite (Permutation_length Hp). unfold listed.
    clear. induction fis as [|fi fis IH]; simpl; [reflexivity|].
    destruct (HasPrefix (os.Name fi) "."); simpl; [exact IH|].
    destruct (os.IsDir fi); simpl; [now rewrite IH|].
    destruct (isMarkdownFile (os.Name fi)); simpl; [now rewrite IH | exact IH].
Qed.

Lemma getFiles_lists_exactly_the_visible_witness :
  (forall x,
     In x [ {| Name := "api"; IsDir := true |}; {| Name := "notes"; IsDir := true |};
            {| Name := "guide.md"; IsDir := false |};
            {| Name := "internal.md"; IsDir := false |} ] <->
     exists fi, In fi Demo.docs_entries /\ x = file_of fi /\
       HasPrefix (os.Name fi) "." = false /\
       (os.IsDir fi = true \/ isMarkdownFile (os.Name fi) = true)) /\
  4%nat =
    List.length (filter (fun fi => negb (HasPrefix (os.Name fi) ".")
                                   && (os.IsDir fi || isMarkdownFile (os.Name fi)))
                        Demo.docs_entries).
Proof.
  exact (getFiles_lists_exactly_the_visible
           {| os.FName := "docs"; os.node := Demo.directory "docs" Demo.docs_entries |}
           [EvReaddir "docs"] _ Demo.docs_entries eq_refl eq_refl).
Defined.

(** ** Display names *)

Lemma slashfree_no_slash_suffix (l : bytes) :
  slashfree l -> has_prefix (rev l) ["/"%char] = false.
Proof.
  intros H. apply slashfree_rev in H.
  destruct (rev l) as [|c r]; [reflexivity|].
  inversion H as [|? ? Hc _]; subst. cbn [has_prefix].
  unfold is_slash in Hc. now rewrite Hc.
Qed.

Lemma HasSuffix_DisplayName (f : File) :
  slashfree (b (Name f)) -> HasSuffix (DisplayName f) "/" = IsDir f.
Proof.
  intros H. unfold DisplayName, HasSuffix. change (rev (b "/")) with ["/"%char].
  destruct (IsDir f).
  - rewrite b_app, rev_app_distr. reflexivity.
  - now apply slashfree_no_slash_suffix.
Qed.

Lemma string_app_inv_tail (s t u : string) : s ++ u = t ++ u -> s = t.
Proof.
  intros H. apply b_inj. apply (f_equal b) in H. rewrite !b_app in H.
  now apply app_inv_tail in H.
Qed.

(** X5. For files named without a slash, as the entries of a directory
    are, the display name ends with a slash exactly for directories, and
    two files with one display name are the same file. *)
Theorem DisplayName_marks_directories (f g : File) :
  slashfree (b (Name f)) -> slashfree (b (Name g)) ->
  HasSuffix (DisplayName f) "/" = IsDir f /\
  (DisplayName f = DisplayName g -> f = g).
Proof.
  intros Hf Hg. split; [now apply HasSuffix_DisplayName|].
  intros H.
  assert (Hd : IsDir f = IsDir g).
  { rewrite <- (HasSuffix_DisplayName f Hf), <- (HasSuffix_DisplayName g Hg).
    now rewrite H. }
  destruct f as [nf df], g as [ng dg]. cbn [IsDir Name] in *. subst dg.
  unfold DisplayName in H. cbn [IsDir Name] in H. destruct df.
  - apply string_app_inv_tail in H. now subst.
  - now subst.
Qed.

Lemma DisplayName_marks_directories_witness :
  HasSuffix (DisplayName {| Name := "api"; IsDir := true |}) "/" = true /\
  (DisplayName {| Name := "api"; IsDir := true |}
   = DisplayName {| Name := "api"; IsDir := true |} ->
   {| Name := "api"; IsDir := true |} = {| Name := "api"; IsDir := true |}).
Proof.
  apply (DisplayName_marks_directories
           {| Name := "api"; IsDir := true |} {| Name := "api"; IsDir := true |});
    repeat constructor.
Defined.

(** ** The page layout *)

Lemma skipn_prefix (p s : bytes) : skipn (List.length p) (p ++ s)%list = s.
Proof. induction p as [|c p IH]; simpl; [reflexivity | exact IH]. Qed.

Lemma TrimPrefix_app (p s : string) : TrimPrefix (p ++ s) p = s.
Proof.
  unfold TrimPrefix, HasPrefix. rewrite b_app, has_prefix_app, skipn_prefix.
  apply str_b.
Qed.

Lemma rooted_string (url : string) :
  HasPrefix url "/" = true -> exists rest, url = "/" ++ rest.
Proof.
  intros H. destruct (rooted_bytes url H) as [p Hp].
  exists (str p). apply b_inj. rewrite Hp. change (b ("/" ++ str p)) with ("/"%char :: b (str p)).
  now rewrite b_str.
Qed.

(** X6. [Dir] removes the mount root from the front of the page's path
    and puts a slash there; a path that does not start with the root is
    kept whole behind the slash; with the default root the directory of a
    page is the URL of its request. *)
Theorem Layout_Dir_strips_the_root :
  (forall root rest theme,
     Layout_Dir {| Layout_root := root; Layout_path := root ++ rest;
                   Layout_theme := theme |} = "/" ++ rest) /\
  (forall v, HasPrefix (Layout_path v) (Layout_root v) = false ->
     Layout_Dir v = "/" ++ Layout_path v) /\
  (forall req theme,
     Layout_Dir {| Layout_root := defaultRoot; Layout_path := request_url req;
                   Layout_theme := theme |} = request_url req).
Proof.
  split; [|split].
  - intros root rest theme. unfold Layout_Dir. cbn [Layout_root Layout_path].
    now rewrite TrimPrefix_app.
  - intros v H. unfold Layout_Dir, TrimPrefix. now rewrite H.
  - intros req theme.
    destruct (rooted_string _ (request_url_rooted req)) as [rest Hrest].
    unfold Layout_Dir. cbn [Layout_root Layout_path]. rewrite Hrest.
    unfold defaultRoot. now rewrite TrimPrefix_app.
Qed.

Lemma Layout_Dir_strips_the_root_witness :
  Layout_Dir {| Layout_root := "/docs/"; Layout_path := "notes/"; Layout_theme := "" |}
  = "/" ++ "notes/".
Proof.
  apply (proj1 (proj2 Layout_Dir_strips_the_root)
           {| Layout_root := "/docs/"; Layout_path := "notes/"; Layout_theme := "" |}).
  reflexivity.
Defined.

Lemma path_Join_rooted (root name : string) :
  HasPrefix root "/" = true ->
  path_Join [root; ".mdoc/assets"; name] =
    LexicalClean (root ++ "/.mdoc/assets/" ++ name).
Proof.
  intros H. destruct (rooted_string root H) as [rest ->].
  unfold path_Join. cbn [fold_left String.length Nat.add Nat.eqb].
  destruct (Nat.eqb _ 0) eqn:E.
  { apply Nat.eqb_eq in E.
    assert (forall n e, (fold_left (fun size e0 => size + String.length e0) e (S n) <> 0)%nat) as Hpos.
    { intros n e. revert n. induction e as [|x e IH]; intros n; simpl; [discriminate | apply IH]. }
    exfalso. revert E. apply (Hpos _ [".mdoc/assets"; name]). }
  cbn [path_join_buf String.eqb append negb orb Ascii.eqb Bool.eqb].
  rewrite <- Clean_rooted by reflexivity.
  f_equal. cbn [append]. f_equal. rewrite !string_app_assoc. reflexivity.
Qed.

(** X7. With a root that starts with a slash, the path of an asset is the
    lexical cleaning of root, [/.mdoc/assets/] and the name: it starts with
    a slash and has no [..] segment, whatever the name.  With the default
    root and a name that is one plain segment it is [/.mdoc/assets/]
    followed by the name. *)
Theorem Layout_StaticFile_is_clean (v : Layout) (name : string) :
  HasPrefix (Layout_root v) "/" = true ->
  Layout_StaticFile v name =
    LexicalClean (Layout_root v ++ "/.mdoc/assets/" ++ name) /\
  HasPrefix (Layout_StaticFile v name) "/" = true /\
  ~ In ".." (Segments (Layout_StaticFile v name)) /\
  (Layout_root v = defaultRoot -> kept_segment (b name) ->
   Layout_StaticFile v name = "/.mdoc/assets/" ++ name).
Proof.
  intros H. unfold Layout_StaticFile.
  rewrite (path_Join_rooted _ name H).
  split; [reflexivity|]. split; [apply LexicalClean_rooted|]. split.
  - intros Hin. apply LexicalClean_segments in Hin.
    destruct Hin as [Hin | (_ & _ & _ & Hin)]; discriminate.
  - intros -> Hk. destruct Hk as (Hne & Hfree & Hd & Hdd).
    unfold LexicalClean, lexical_clean, defaultRoot.
    replace (b ("/" ++ "/.mdoc/assets/" ++ name))
      with ([] ++ "/"%char :: ([] ++ "/"%char ::
             (b ".mdoc" ++ "/"%char :: (b "assets" ++ "/"%char :: b name))))%list
      by (rewrite !b_app; reflexivity).
    rewrite !segments_app_slash, (segments_slashfree (b name) Hfree).
    set (kept := fold_left resolve_step _ []).
    assert (Hkept : kept = resolve_step [b "assets"; b ".mdoc"] (b name)).
    { unfold kept. rewrite !fold_left_app. reflexivity. }
    rewrite Hkept. clear kept Hkept.
    assert (Hstep : resolve_step [b "assets"; b ".mdoc"] (b name)
                    = [b name; b "assets"; b ".mdoc"]).
    { unfold resolve_step. rewrite Hd, Hdd. destruct (b name); [contradiction | reflexivity]. }
    rewrite Hstep. cbn [rev app join_slash].
    rewrite app_nil_r.
    change ("/"%char :: (b ".mdoc" ++ "/"%char :: (b "assets" ++ "/"%char :: b name)))%list
      with (b "/.mdoc/assets/" ++ b name)%list.
    now rewrite str_app, !str_b.
Qed.

Lemma Layout_StaticFile_is_clean_witness :
  Layout_StaticFile {| Layout_root := "/"; Layout_path := "/notes/"; Layout_theme := "" |}
    "style.css" = "/.mdoc/assets/" ++ "style.css".
Proof.
  apply (Layout_StaticFile_is_clean
           {| Layout_root := "/"; Layout_path := "/notes/"; Layout_theme := "" |}
           "style.css" eq_refl).
  - reflexivity.
  - repeat split; try discriminate; repeat constructor.
Defined.

(** ** [byName.Swap] *)

Section SwapFacts.
Local Open Scope list_scope.

Lemma set_index_length (v : list File) (i : nat) (x : File) :
  List.length (set_index v i x) = List.length v.
Proof.
  revert i. induction v as [|y v IH]; intros [|i]; simpl; auto.
Qed.

Lemma nth_error_set_index (v : list File) (i k : nat) (x : File) :
  nth_error (set_index v i x) k =
    if Nat.eqb k i then (if (i <? List.length v)%nat then Some x else None)
    else nth_error v k.
Proof.
  revert i k. induction v as [|y v IH]; intros i k.
  - cbn [set_index]. destruct i; destruct k; cbn; try reflexivity.
    now destruct (Nat.eqb k i).
  - destruct i as [|i], k as [|k]; cbn [set_index nth_error Nat.eqb]; try reflexivity.
    rewrite IH. reflexivity.
Qed.

Lemma set_index_perm (l : list File) (n : nat) (a y : File) :
  nth_error l n = Some a -> Permutation (y :: l) (a :: set_index l n y).
Proof.
  revert n. induction l as [|z l IH]; intros [|n] H; simpl in H; try discriminate.
  - injection H as ->. apply perm_swap.
  - cbn [set_index].
    eapply Permutation_trans; [apply perm_swap|].
    eapply Permutation_trans; [apply perm_skip, (IH n H)|]. apply perm_swap.
Qed.

Lemma set_index_same (l : list File) (n : nat) (a : File) :
  nth_error l n = Some a -> set_index l n a = l.
Proof.
  revert n. induction l as [|z l IH]; intros [|n] H; simpl in H; try discriminate.
  - now injection H as ->.
  - cbn [set_index]. f_equal. now apply IH.
Qed.

Lemma Swap_perm (v v' : list File) (i j : nat) :
  Swap v i j = Some v' -> Permutation v v'.
Proof.
  unfold Swap. revert i j v'. induction v as [|y v IH]; intros i j v'.
  - destruct j; discriminate.
  - destruct (nth_error (y :: v) j) as [vj|] eqn:Ej; [|discriminate].
    destruct (nth_error (y :: v) i) as [vi|] eqn:Ei; [|discriminate].
    intros [= <-].
    destruct i as [|i], j as [|j]; cbn [nth_error] in Ei, Ej; cbn [set_index].
    + injection Ei as ->. injection Ej as ->. apply Permutation_refl.
    + injection Ei as ->. now apply set_index_perm.
    + injection Ej as ->. apply Permutation_sym.
      eapply Permutation_trans; [|apply Permutation_sym, (set_index_perm v i vi vj Ei)].
      apply Permutation_refl.
    + apply perm_skip. apply (IH i j). now rewrite Ej, Ei.
Qed.

(** X8. [Swap] panics exactly when an index is out of range; otherwise
    it returns a permutation of the same length in which the two positions
    have exchanged their files, and swapping again gives the slice back. *)
Theorem Swap_exchanges (v : list File) (i j : nat) :
  (Swap v i j = None <-> ~ (i < Len v /\ j < Len v)%nat) /\
  (forall v', Swap v i j = Some v' ->
     Len v' = Len v /\ Permutation v v' /\
     nth_error v' i = nth_error v j /\ nth_error v' j = nth_error v i /\
     Swap v' i j = Some v).
Proof.
  unfold Len. split.
  - unfold Swap. split.
    + intros H [Hi Hj].
      apply nth_error_Some in Hi, Hj.
      destruct (nth_error v j); [|contradiction].
      destruct (nth_error v i); [discriminate | contradiction].
    + intros H.
      destruct (nth_error v j) eqn:Ej; [|reflexivity].
      destruct (nth_error v i) eqn:Ei; [|reflexivity].
      exfalso. apply H. split; apply nth_error_Some; congruence.
  - intros v' H. pose proof (Swap_perm _ _ _ _ H) as Hp.
    unfold Swap in *.
    destruct (nth_error v j) as [vj|] eqn:Ej; [|discriminate].
    destruct (nth_error v i) as [vi|] eqn:Ei; [|discriminate].
    injection H as <-.
    assert (Hi : (i < List.length v)%nat) by (apply nth_error_Some; congruence).
    assert (Hj : (j < List.length v)%nat) by (apply nth_error_Some; congruence).
    assert (Hi' : (i <? List.length v)%nat = true) by now apply Nat.ltb_lt.
    assert (Hj' : (j <? List.length (set_index v i vj))%nat = true)
      by (rewrite set_index_length; now apply Nat.ltb_lt).
    assert (E1 : nth_error (set_index (set_index v i vj) j vi) i = Some vj).
    { rewrite nth_error_set_index, Hj'.
      destruct (Nat.eqb i j) eqn:E.
      - apply Nat.eqb_eq in E. subst j. congruence.
      - now rewrite nth_error_set_index, Nat.eqb_refl, Hi'. }
    assert (E2 : nth_error (set_index (set_index v i vj) j vi) j = Some vi).
    { now rewrite nth_error_set_index, Nat.eqb_refl, Hj'. }
    split; [now rewrite !set_index_length|]. split; [exact Hp|].
    split; [congruence|]. split; [congruence|].
    rewrite E1, E2. f_equal.
    apply nth_error_ext. intros k.
    rewrite !nth_error_set_index, !set_index_length.
    rewrite Hi'. replace (j <? List.length v)%nat with true by (symmetry; now apply Nat.ltb_lt).
    destruct (Nat.eqb k j) eqn:Ekj.
    + apply Nat.eqb_eq in Ekj. subst k. congruence.
    + destruct (Nat.eqb k i) eqn:Eki.
      * apply Nat.eqb_eq in Eki. subst k. congruence.
      * reflexivity.
Qed.

End SwapFacts.

Lemma Swap_exchanges_witness :
  Len [ {| Name := "a.md"; IsDir := false |}; {| Name := "api"; IsDir := true |} ] = 2%nat /\
  Swap [ {| Name := "a.md"; IsDir := false |}; {| Name := "api"; IsDir := true |} ] 0 1
    = Some [ {| Name := "api"; IsDir := true |}; {| Name := "a.md"; IsDir := false |} ] /\
  Swap [ {| Name := "api"; IsDir := true |}; {| Name := "a.md"; IsDir := false |} ] 0 1
    = Some [ {| Name := "a.md"; IsDir := false |}; {| Name := "api"; IsDir := true |} ].
Proof.
  pose proof (proj2 (Swap_exchanges
    [ {| Name := "a.md"; IsDir := false |}; {| Name := "api"; IsDir := true |} ] 0 1)
    [ {| Name := "api"; IsDir := true |}; {| Name := "a.md"; IsDir := false |} ]
    eq_refl) as (H1 & _ & _ & _ & H5).
  split; [reflexivity|]. split; [reflexivity | exact H5].
Defined.

(** ** Every request *)

Section DispatchFacts.
Variable fs : os.FS.
Variable gfm_Markdown : string -> string.

Local Abbreviation ServeHTTP := (ServeHTTP fs gfm_Markdown).

(** Splits the handler into its paths: every test of [ServeHTTP] and of
    the functions it calls is decided, and the events are computed. *)
Ltac io_cbn :=
  cbn [bind emit ret panic trace fst snd app negb andb os.node os.FName].

Ltac decide_test :=
  match goal with
  | |- context [fs ?n] => destruct (fs n) eqn:?
  | |- context [os.node_stat ?n] => destruct (os.node_stat n) eqn:?
  | |- context [os.IsDir ?fi] => destruct (os.IsDir fi) eqn:?
  | |- context [HasSuffix ?u ?s] => destruct (HasSuffix u s) eqn:?
  | |- context [isMarkdownFile ?n] => destruct (isMarkdownFile n) eqn:?
  | |- context [os.node_readdir ?n] => destruct (os.node_readdir n) eqn:?
  | |- context [os.node_readall ?n] => destruct (os.node_readall n) eqn:?
  | |- context [indexRenderer ?h] => destruct (indexRenderer h) eqn:?
  | |- context [documentRenderer ?h] => destruct (documentRenderer h) eqn:?
  | |- context [errorHandler ?h] => destruct (errorHandler h) eqn:?
  | fn : indexRendererFunc |- context [?f ?v] =>
      constr_eq f fn; destruct (fn v) as [? [?|]] eqn:?
  | fn : documentRendererFunc |- context [?f ?v] =>
      constr_eq f fn; destruct (fn v) as [? [?|]] eqn:?
  end.

Ltac paths :=
  unfold ServeHTTP, serve_file, respond, renderIndex, renderDocument, getFiles,
    call_errorHandler, call_indexRenderer, call_documentRenderer, redirect,
    os_Open, file_Stat, ioutil_ReadAll, os.Open;
  io_cbn; repeat (decide_test; io_cbn).

(** X9. Whatever the request, the error handler is called at most once,
    and the only thing the handler can still do after that call is the one
    call of [http.ServeContent]: it touches no file and calls no renderer
    any more. *)
Theorem ServeHTTP_errorHandler_at_most_once (h : handler) (req : http.Request) :
  (List.length (filter is_errorHandler_call (trace (ServeHTTP h req))) <= 1)%nat /\
  (List.length (after_errorHandler (trace (ServeHTTP h req))) <= 1)%nat /\
  forallb is_ServeContent (after_errorHandler (trace (ServeHTTP h req))) = true.
Proof.
  paths.
  all: cbn; repeat split; lia.
Qed.

(** X10. A redirect is all the handler does: when it writes to the
    response itself, the events are the open, the stat, the [Location]
    header and status 307, so no renderer, no error handler and no
    [http.ServeContent] is called, and nothing is read. *)
Theorem ServeHTTP_redirect_is_alone (h : handler) (req : http.Request) :
  existsb is_response_write (trace (ServeHTTP h req)) = true ->
  exists loc,
    trace (ServeHTTP h req) =
      [ EvOpen (resolve_name h (request_url req));
        EvStat (resolve_name h (request_url req));
        EvWrite (http.SetHeader "Location" loc);
        EvWrite (http.WriteHeader 307) ].
Proof.
  paths.
  all: cbn; intros Hw; try discriminate Hw.
  all: eexists; reflexivity.
Qed.

(** X11. [http.ServeContent] is called at most once and is then the last
    thing the handler does; the name it is given is the name opened, or
    that name followed by [/index.md]. *)
Theorem ServeHTTP_ServeContent_is_last (h : handler) (req : http.Request) :
  forallb (fun e => negb (is_ServeContent e))
          (removelast (trace (ServeHTTP h req))) = true /\
  (forall name modtime content,
     In (EvServeContent name modtime content) (trace (ServeHTTP h req)) ->
     name = resolve_name h (request_url req) \/
     name = resolve_name h (request_url req) ++ "/index.md").
Proof.
  paths.
  all: split; [reflexivity|].
  all: cbn; intros n m c Hin.
  all: repeat (destruct Hin as [Hin | Hin]; [try discriminate Hin|]); try contradiction.
  all: injection Hin as <- _ _; auto.
Qed.


Lemma open_failure_events
    (h : handler) (req : http.Request) (eh : errorHandlerFunc) (e : error) :
  errorHandler h = Some eh ->
  fs (resolve_name h (request_url req)) = Err e ->
  ServeHTTP h req =
    ([EvOpen (resolve_name h (request_url req)); EvErrorHandler e (eh req e)], Some tt).
Proof.
  intros Heh Hfs. unfold ServeHTTP, os_Open, os.Open, call_errorHandler.
  rewrite Hfs, Heh. reflexivity.
Qed.

(** X12. When the path cannot be opened, or the opened file cannot be
    examined, the error handler is called once with that very error and
    the handler stops there: nothing is rendered and [http.ServeContent]
    is not called. *)
Theorem ServeHTTP_open_or_stat_failure
    (h : handler) (req : http.Request) (eh : errorHandlerFunc) :
  let name := resolve_name h (request_url req) in
  errorHandler h = Some eh ->
  (forall e, fs name = Err e ->
     ServeHTTP h req = ([EvOpen name; EvErrorHandler e (eh req e)], Some tt)) /\
  (forall nd e, fs name = Ok nd -> os.node_stat nd = Err e ->
     ServeHTTP h req =
       ([EvOpen name; EvStat name; EvErrorHandler e (eh req e)], Some tt)).
Proof.
  intros name Heh. split.
  - intros e Hfs. now apply open_failure_events.
  - intros nd e Hfs Hst.
    unfold ServeHTTP, os_Open, os.Open, file_Stat, call_errorHandler. fold name.
    rewrite Hfs. io_cbn. rewrite Hst, Heh. reflexivity.
Qed.

(** X13. With the default error handler, a path that does not exist is
    answered by 404 and a path that may not be opened by 403, each with
    the status phrase as plain text and nothing else. *)
Theorem ServeHTTP_missing_or_forbidden (h : handler) (req : http.Request) (e : error) :
  let name := resolve_name h (request_url req) in
  errorHandler h = Some defaultErrorHandler ->
  fs name = Err e ->
  (os.IsNotExist e = true ->
   trace (ServeHTTP h req) =
     [EvOpen name; EvErrorHandler e (plain_text_reply 404 "Not Found")]) /\
  (os.IsPermission e = true ->
   trace (ServeHTTP h req) =
     [EvOpen name; EvErrorHandler e (plain_text_reply 403 "Forbidden")]).
Proof.
  intros name Heh Hfs.
  unfold name. rewrite (open_failure_events h req _ e Heh Hfs). cbn [trace fst].
  unfold defaultErrorHandler, defaultErrorCode. split.
  - intros H. rewrite H. now destruct e.
  - intros H. destruct (IsPermission_not_IsNotExist e H) as [Hne Hno].
    rewrite Hno, H. destruct e; [contradiction | reflexivity ..].
Qed.

(** X14. A URL without a slash at its end that opens as a regular file
    with a Markdown name: the file is read, the document renderer is called
    once with the converted content, the name opened and the URL as path,
    and the bytes it returns are served under that name with the time of
    the file; no error handler is called. *)
Theorem ServeHTTP_renders_a_document
    (h : handler) (req : http.Request) (nd : os.Node) (fi : os.FileInfo)
    (raw : string) (fn : documentRendererFunc) (bs : string) :
  let url := request_url req in
  let name := resolve_name h url in
  let v := {| DocumentPage_Layout :=
                {| Layout_root := root h; Layout_path := url; Layout_theme := "" |};
              DocumentPage_Name := name;
              Content := gfm_Markdown raw |} in
  fs name = Ok nd -> os.node_stat nd = Ok fi -> os.IsDir fi = false ->
  HasSuffix url "/" = false -> isMarkdownFile name = true ->
  os.node_readall nd = Ok raw -> documentRenderer h = Some fn ->
  fn v = (bs, None) ->
  ServeHTTP h req =
    ([ EvOpen name; EvStat name; EvReadAll name; EvDocumentRenderer v;
       EvServeContent name (os.ModTime fi) bs ], Some tt).
Proof.
  intros url name v Hfs Hst Hdir Hsuf Hmd Hread Hfn Hv.
  unfold ServeHTTP, os_Open, os.Open, file_Stat. fold url. fold name.
  rewrite Hfs. io_cbn. rewrite Hst. io_cbn. rewrite Hdir.
  unfold serve_file. rewrite Hdir, Hsuf. io_cbn.
  unfold renderDocument, ioutil_ReadAll. io_cbn. rewrite Hmd. io_cbn.
  rewrite Hread. io_cbn. unfold call_documentRenderer. rewrite Hfn. io_cbn.
  fold v. rewrite Hv. reflexivity.
Qed.

(** X15. A URL with a slash at its end that opens as a directory in which
    [index.md] does not open: the directory is read, the index renderer is
    called once with the visible entries in order and the URL as path, and
    the bytes it returns are served with the time of the directory, under
    the name of the missing [index.md]. *)
Theorem ServeHTTP_renders_a_listing
    (h : handler) (req : http.Request) (nd : os.Node) (fi : os.FileInfo)
    (e : error) (fis : list os.FileInfo) (fn : indexRendererFunc) (bs : string) :
  let url := request_url req in
  let name := resolve_name h url in
  let iname := name ++ "/index.md" in
  let v := {| IndexPage_Layout :=
                {| Layout_root := root h; Layout_path := url; Layout_theme := "" |};
              Files := sort.Sort Less (listed fis) |} in
  fs name = Ok nd -> os.node_stat nd = Ok fi -> os.IsDir fi = true ->
  HasSuffix url "/" = true -> fs iname = Err e ->
  os.node_readdir nd = Ok fis -> indexRenderer h = Some fn ->
  fn v = (bs, None) ->
  ServeHTTP h req =
    ([ EvOpen name; EvStat name; EvOpen iname; EvReaddir name; EvIndexRenderer v;
       EvServeContent iname (os.ModTime fi) bs ], Some tt).
Proof.
  intros url name iname v Hfs Hst Hdir Hsuf Hifs Hrd Hfn Hv.
  unfold ServeHTTP, os_Open, os.Open, file_Stat. fold url. fold name. fold iname.
  rewrite Hfs, Hifs. io_cbn. rewrite Hst. io_cbn. rewrite Hdir, Hsuf. io_cbn.
  unfold serve_file. rewrite Hdir.
  unfold renderIndex, getFiles. io_cbn. rewrite Hrd. io_cbn.
  rewrite collect_listed.
  unfold call_indexRenderer. rewrite Hfn. io_cbn. fold v. rewrite Hv. reflexivity.
Qed.

(** X16. The probe for [index.md] keeps what it finds only when the file
    both opens and can be examined.  When it is itself a directory, that
    directory is the one listed; when it opens but cannot be examined, the
    directory of the URL is listed, as when it does not open. *)
Theorem ServeHTTP_index_md_probe
    (h : handler) (req : http.Request) (nd ind : os.Node) (fi : os.FileInfo) :
  let url := request_url req in
  let name := resolve_name h url in
  let iname := name ++ "/index.md" in
  fs name = Ok nd -> os.node_stat nd = Ok fi -> os.IsDir fi = true ->
  HasSuffix url "/" = true -> fs iname = Ok ind ->
  (forall ifi, os.node_stat ind = Ok ifi -> os.IsDir ifi = true ->
     trace (ServeHTTP h req) =
       ([ EvOpen name; EvStat name; EvOpen iname; EvStat iname ]
        ++ trace (r <- renderIndex h {| os.FName := iname; os.node := ind |} url ;;
                  respond h req iname ifi r))%list) /\
  (forall e, os.node_stat ind = Err e ->
     trace (ServeHTTP h req) =
       ([ EvOpen name; EvStat name; EvOpen iname; EvStat iname ]
        ++ trace (r <- renderIndex h {| os.FName := name; os.node := nd |} url ;;
                  respond h req iname fi r))%list).
Proof.
  intros url name iname Hfs Hst Hdir Hsuf Hifs. split.
  - intros ifi Hist Hidir.
    unfold ServeHTTP, os_Open, os.Open, file_Stat. fold url. fold name. fold iname.
    rewrite Hfs, Hifs. io_cbn. rewrite Hst. io_cbn. rewrite Hdir, Hsuf. io_cbn.
    rewrite Hist. io_cbn. unfold serve_file. rewrite Hidir.
    destruct (r <- renderIndex h {| os.FName := iname; os.node := ind |} url ;;
              respond h req iname ifi r) as [t r].
    reflexivity.
  - intros e Hist.
    unfold ServeHTTP, os_Open, os.Open, file_Stat. fold url. fold name. fold iname.
    rewrite Hfs, Hifs. io_cbn. rewrite Hst. io_cbn. rewrite Hdir, Hsuf. io_cbn.
    rewrite Hist. io_cbn. unfold serve_file. rewrite Hdir.
    destruct (r <- renderIndex h {| os.FName := name; os.node := nd |} url ;;
              respond h req iname fi r) as [t r].
    reflexivity.
Qed.

(** X17. A failure before the renderer is returned as it is and the
    renderer is not called: [renderIndex] returns the error of reading the
    directory, and [renderDocument] the error of reading the file. *)
Theorem render_failures_skip_the_renderer (h : handler) (f : os.File) (path : string) :
  (forall e, os.node_readdir (os.node f) = Err e ->
     renderIndex h f path = ([EvReaddir (os.FName f)], Some ("", Some e))) /\
  (forall e, isMarkdownFile (os.FName f) = true ->
     os.node_readall (os.node f) = Err e ->
     renderDocument gfm_Markdown h f path =
       ([EvReadAll (os.FName f)], Some ("", Some e))).
Proof.
  split.
  - intros e H. unfold renderIndex, getFiles. io_cbn. rewrite H. reflexivity.
  - intros e Hmd H. unfold renderDocument, ioutil_ReadAll. rewrite Hmd. io_cbn.
    rewrite H. reflexivity.
Qed.

End DispatchFacts.

Lemma ServeHTTP_redirect_is_alone_witness :
  exists loc,
    trace (Demo.ServeHTTP Demo.h (Demo.get "/notes" "")) =
      [ EvOpen "docs/notes"; EvStat "docs/notes";
        EvWrite (http.SetHeader "Location" loc);
        EvWrite (http.WriteHeader 307) ].
Proof.
  exact (ServeHTTP_redirect_is_alone Demo.fs Demo.gfm_Markdown Demo.h
           (Demo.get "/notes" "") eq_refl).
Defined.

Lemma ServeHTTP_ServeContent_is_last_witness :
  "docs/guide.md" = "docs/guide.md" \/ "docs/guide.md" = "docs/guide.md" ++ "/index.md".
Proof.
  apply (proj2 (ServeHTTP_ServeContent_is_last Demo.fs Demo.gfm_Markdown Demo.h
                  (Demo.get "/guide.md" ""))
           "docs/guide.md" 1700000000%Z "theme document: <p># Guide</p>").
  simpl. tauto.
Defined.

Lemma ServeHTTP_open_or_stat_failure_witness :
  Demo.ServeHTTP Demo.h (Demo.get "/missing.md" "") =
    ([ EvOpen "docs/missing.md";
       EvErrorHandler (Demo.enoent "docs/missing.md")
         (defaultErrorHandler (Demo.get "/missing.md" "") (Demo.enoent "docs/missing.md")) ],
     Some tt).
Proof.
  exact (proj1 (ServeHTTP_open_or_stat_failure Demo.fs Demo.gfm_Markdown Demo.h
                  (Demo.get "/missing.md" "") defaultErrorHandler eq_refl)
           (Demo.enoent "docs/missing.md") eq_refl).
Defined.

Lemma ServeHTTP_missing_or_forbidden_witness :
  trace (Demo.ServeHTTP Demo.h (Demo.get "/missing.md" "")) =
    [ EvOpen "docs/missing.md";
      EvErrorHandler (Demo.enoent "docs/missing.md") (plain_text_reply 404 "Not Found") ].
Proof.
  exact (proj1 (ServeHTTP_missing_or_forbidden Demo.fs Demo.gfm_Markdown Demo.h
                  (Demo.get "/missing.md" "") (Demo.enoent "docs/missing.md")
                  eq_refl eq_refl)
           eq_refl).
Defined.

Lemma ServeHTTP_renders_a_document_witness :
  Demo.ServeHTTP Demo.h (Demo.get "/.draft.md" "") =
    ([ EvOpen "docs/.draft.md"; EvStat "docs/.draft.md"; EvReadAll "docs/.draft.md";
       EvDocumentRenderer
         {| DocumentPage_Layout :=
              {| Layout_root := "/"; Layout_path := "/.draft.md"; Layout_theme := "" |};
            DocumentPage_Name := "docs/.draft.md";
            Content := "<p>draft</p>" |};
       EvServeContent "docs/.draft.md" 1700000000 "theme document: <p>draft</p>" ],
     Some tt).
Proof.
  exact (ServeHTTP_renders_a_document Demo.fs Demo.gfm_Markdown Demo.h
           (Demo.get "/.draft.md" "") (Demo.regular ".draft.md" "draft")
           {| os.Name := ".draft.md"; os.IsDir := false; os.ModTime := 1700000000 |}
           "draft" (fun v => ("theme document: " ++ Content v, None))
           "theme document: <p>draft</p>"
           eq_refl eq_refl eq_refl eq_refl eq_refl eq_refl eq_refl eq_refl).
Defined.

Lemma ServeHTTP_renders_a_listing_witness :
  Demo.ServeHTTP Demo.h (Demo.get "/" "") =
    ([ EvOpen "docs"; EvStat "docs"; EvOpen "docs/index.md"; EvReaddir "docs";
       EvIndexRenderer
         {| IndexPage_Layout :=
              {| Layout_root := "/"; Layout_path := "/"; Layout_theme := "" |};
            Files := [ {| Name := "api"; IsDir := true |};
                       {| Name := "notes"; IsDir := true |};
                       {| Name := "guide.md"; IsDir := false |};
                       {| Name := "internal.md"; IsDir := false |} ] |};
       EvServeContent "docs/index.md" 1600000000
         "theme index: contrib/themes/default/index.html" ],
     Some tt).
Proof.
  exact (ServeHTTP_renders_a_listing Demo.fs Demo.gfm_Markdown Demo.h
           (Demo.get "/" "") (Demo.directory "docs" Demo.docs_entries)
           {| os.Name := "docs"; os.IsDir := true; os.ModTime := 1600000000 |}
           (Demo.enoent "docs/index.md") Demo.docs_entries
           (fun v => ("theme index: contrib/themes/default/index.html", None))
           "theme index: contrib/themes/default/index.html"
           eq_refl eq_refl eq_refl eq_refl eq_refl eq_refl eq_refl eq_refl).
Defined.

Lemma ServeHTTP_index_md_probe_witness :
  trace (ServeHTTP DemoProbe.probe_fs Demo.gfm_Markdown Demo.h (Demo.get "/" "")) =
    [ EvOpen "docs"; EvStat "docs"; EvOpen "docs/index.md"; EvStat "docs/index.md";
      EvReaddir "docs/index.md";
      EvIndexRenderer
        {| IndexPage_Layout :=
             {| Layout_root := "/"; Layout_path := "/"; Layout_theme := "" |};
           Files := [ {| Name := "inner.md"; IsDir := false |} ] |};
      EvServeContent "docs/index.md" 1600000000
        "theme index: contrib/themes/default/index.html" ].
Proof.
  exact (proj1 (ServeHTTP_index_md_probe DemoProbe.probe_fs Demo.gfm_Markdown Demo.h
                  (Demo.get "/" "")
                  (Demo.directory "docs" [Demo.entry "index.md" true])
                  (Demo.directory "index.md" [Demo.entry "inner.md" false])
                  {| os.Name := "docs"; os.IsDir := true; os.ModTime := 1600000000 |}
                  eq_refl eq_refl eq_refl eq_refl eq_refl)
           {| os.Name := "index.md"; os.IsDir := true; os.ModTime := 1600000000 |}
           eq_refl eq_refl).
Defined.

Lemma render_failures_skip_the_renderer_witness :
  renderIndex Demo.h
    {| os.FName := "docs/guide.md"; os.node := Demo.regular "guide.md" "# Guide" |} "/guide.md"
  = ([EvReaddir "docs/guide.md"],
     Some ("", Some (SyscallError "readdirent" (Errno 20)))) /\
  renderDocument Demo.gfm_Markdown Demo.h
    {| os.FName := "docs/api.md"; os.node := Demo.directory "api.md" [] |} "/api.md"
  = ([EvReadAll "docs/api.md"],
     Some ("", Some (PathError "read" "api.md" (Errno 21)))).
Proof.
  split.
  - exact (proj1 (render_failures_skip_the_renderer Demo.gfm_Markdown Demo.h
                    {| os.FName := "docs/guide.md";
                       os.node := Demo.regular "guide.md" "# Guide" |} "/guide.md")
             _ eq_refl).
  - exact (proj2 (render_failures_skip_the_renderer Demo.gfm_Markdown Demo.h
                    {| os.FName := "docs/api.md";
                       os.node := Demo.directory "api.md" [] |} "/api.md")
             _ eq_refl eq_refl).
Defined.

(** ** Construction and start-up *)

Section StartFacts.
Variable Template : Type.
Variable template_ParseFiles : option Template -> string -> result Template.
Variable template_Execute : Template -> PageData -> result string.

Local Abbreviation New := (New Template template_ParseFiles template_Execute).
Local Abbreviation defaultIndexRenderer :=
  (defaultIndexRenderer Template template_ParseFiles template_Execute).
Local Abbreviation defaultDocumentRenderer :=
  (defaultDocumentRenderer Template template_ParseFiles template_Execute).
Local Abbreviation main := (main.main Template template_ParseFiles template_Execute).

(** The fields of the handler [New] returns that come from the options. *)
Lemma New_fields (dir0 : string) (opts : list Option) (h : handler) :
  New dir0 opts = Returns h ->
  dir h = dir (configured dir0 opts) /\
  root h = root (configured dir0 opts) /\
  themeDir h = themeDir (configured dir0 opts) /\
  assetsDir h = filepath.Join [themeDir (configured dir0 opts); "assets"] /\
  errorHandler h = errorHandler (configured dir0 opts) /\
  indexRenderer h <> None /\ documentRenderer h <> None.
Proof.
  unfold New. fold (configured dir0 opts).
  destruct (defaultIndexRenderer _) as [ir|]; [|discriminate].
  simpl. destruct (defaultDocumentRenderer _) as [dr|]; [|discriminate].
  intros [= <-]. simpl. repeat split; discriminate.
Qed.

Lemma configured_snoc (dir0 : string) (opts : list Option) (o : Option) :
  configured dir0 (opts ++ [o]) = o (configured dir0 opts).
Proof. unfold configured. now rewrite fold_left_app. Qed.

(** X18. [New] honours the options [Root], [Theme] and [ErrorHandler]:
    the one given last decides the field, and the directory of the assets
    follows the theme. *)
Theorem New_honours_Root_Theme_ErrorHandler
    (dir0 : string) (opts : list Option) (h : handler) :
  (forall r, New dir0 (opts ++ [Root r]) = Returns h -> root h = r) /\
  (forall d, New dir0 (opts ++ [Theme d]) = Returns h ->
     themeDir h = d /\ assetsDir h = filepath.Join [d; "assets"]) /\
  (forall fn, New dir0 (opts ++ [ErrorHandler fn]) = Returns h -> errorHandler h = fn).
Proof.
  split; [|split].
  - intros r H. apply New_fields in H. destruct H as (_ & H & _).
    now rewrite H, configured_snoc.
  - intros d H. apply New_fields in H. destruct H as (_ & _ & Ht & Ha & _).
    rewrite Ht, Ha, configured_snoc. now split.
  - intros fn H. apply New_fields in H. destruct H as (_ & _ & _ & _ & H & _).
    now rewrite H, configured_snoc.
Qed.

(** X19. [New] returns a handler exactly when the three templates of the
    configured theme load: [layout.html], then [index.html] and [doc.html]
    on top of it; otherwise it panics. *)
Theorem New_returns_iff_the_theme_loads (dir0 : string) (opts : list Option) :
  let theme := themeDir (configured dir0 opts) in
  (exists h, New dir0 opts = Returns h) <->
  (exists layout index doc,
     template_ParseFiles None (filepath.Join [theme; "layout.html"]) = Ok layout /\
     template_ParseFiles (Some layout) (filepath.Join [theme; "index.html"]) = Ok index /\
     template_ParseFiles (Some layout) (filepath.Join [theme; "doc.html"]) = Ok doc).
Proof.
  intros theme. unfold New. fold (configured dir0 opts). fold theme.
  unfold defaultIndexRenderer, defaultDocumentRenderer, template_Must.
  cbn [themeDir IndexRenderer].
  destruct (template_ParseFiles None (filepath.Join [theme; "layout.html"]))
    as [layout|e] eqn:El.
  - destruct (template_ParseFiles (Some layout) (filepath.Join [theme; "index.html"]))
      as [index|e] eqn:Ei.
    + fold theme. rewrite El.
      destruct (template_ParseFiles (Some layout) (filepath.Join [theme; "doc.html"]))
        as [doc|e] eqn:Ed.
      * split; [intros _ | intros _; eexists; reflexivity].
        exists layout, index, doc. repeat split; assumption.
      * split; [intros [h Hh]; discriminate|].
        intros (l & i & d & [= <-] & _ & Hd). congruence.
    + split; [intros [h Hh]; discriminate|].
      intros (l & i & d & [= <-] & Hi & _). congruence.
  - split; [intros [h Hh]; discriminate|].
    intros (l & i & d & Hl & _). discriminate.
Qed.


(** X21. [main] prints the usage and serves nothing when [-help] is given
    (whatever else is given) or, failing that, when there is more than one
    argument (exit status 1).  Otherwise it serves, with the theme of the
    flag, the directory of the argument, or [.] when there is none or it
    is empty; the address is [:3000] whatever the flag [-addr] holds. *)
Theorem main_outcomes (fl : main.flags) (args : list string) :
  (main.help fl = true -> main fl args = main.Usage main.Stdout None) /\
  (main.help fl = false -> (1 < List.length args)%nat ->
   main fl args = main.Usage main.Stderr (Some 1%Z)) /\
  (forall address h, main fl args = main.ListenAndServe address h ->
     main.help fl = false /\ (List.length args <= 1)%nat /\
     address = ":3000" /\
     themeDir h = main.theme fl /\
     dir h = match args with
             | [] => "."
             | d :: _ => if String.eqb d "" then "." else d
             end /\
     root h = "/" /\
     errorHandler h = Some defaultErrorHandler).
Proof.
  unfold main.main. split; [|split].
  - now intros ->.
  - intros -> H. apply Nat.ltb_lt in H. now rewrite H.
  - intros address h.
    destruct (main.help fl); [discriminate|].
    destruct (1 <? List.length args)%nat eqn:E; [discriminate|].
    apply Nat.ltb_ge in E.
    destruct (New _ _) as [m|] eqn:Hnew; [|discriminate].
    intros [= <- <-]. apply New_fields in Hnew.
    destruct Hnew as (Hdir & Hroot & Htheme & _ & Herr & _).
    split; [reflexivity|]. split; [exact E|]. split; [reflexivity|].
    rewrite Hdir, Hroot, Htheme, Herr.
    destruct args as [|d [|d' args]]; cbn in E |- *; try lia.
    + repeat split.
    + repeat split.
Qed.

End StartFacts.

Lemma New_honours_Root_Theme_ErrorHandler_witness :
  root match Demo.New "docs" [Root "/docs/"] with
       | Returns h => h
       | Panics => configured "docs" []
       end = "/docs/".
Proof.
  apply (proj1 (New_honours_Root_Theme_ErrorHandler Demo.Template
                  Demo.template_ParseFiles Demo.template_Execute "docs" []
                  match Demo.New "docs" [Root "/docs/"] with
                  | Returns h => h
                  | Panics => configured "docs" []
                  end)).
  reflexivity.
Defined.

Lemma New_returns_iff_the_theme_loads_witness :
  exists h, Demo.New "docs" [Theme "themes/plain"] = Returns h.
Proof.
  apply (proj2 (New_returns_iff_the_theme_loads Demo.Template
                  Demo.template_ParseFiles Demo.template_Execute
                  "docs" [Theme "themes/plain"])).
  exists "themes/plain/layout.html", "themes/plain/index.html", "themes/plain/doc.html".
  repeat split.
Defined.


Lemma main_outcomes_witness :
  main.main Demo.Template Demo.template_ParseFiles Demo.template_Execute
    {| main.addr := ":8080"; main.theme := "themes/plain"; main.help := true |}
    ["a"; "b"] = main.Usage main.Stdout None /\
  main.main Demo.Template Demo.template_ParseFiles Demo.template_Execute
    {| main.addr := ":8080"; main.theme := "themes/plain"; main.help := false |}
    ["a"; "b"] = main.Usage main.Stderr (Some 1%Z) /\
  (forall address h,
     main.main Demo.Template Demo.template_ParseFiles Demo.template_Execute
       {| main.addr := ":8080"; main.theme := "themes/plain"; main.help := false |}
       ["site"] = main.ListenAndServe address h ->
     address = ":3000" /\ themeDir h = "themes/plain" /\ dir h = "site").
Proof.
  split; [|split].
  - apply (proj1 (main_outcomes Demo.Template Demo.template_ParseFiles
                    Demo.template_Execute
                    {| main.addr := ":8080"; main.theme := "themes/plain";
                       main.help := true |} ["a"; "b"])).
    reflexivity.
  - apply (proj1 (proj2 (main_outcomes Demo.Template Demo.template_ParseFiles
                           Demo.template_Execute
                           {| main.addr := ":8080"; main.theme := "themes/plain";
                              main.help := false |} ["a"; "b"]))).
    + reflexivity.
    + simpl. lia.
  - intros address h H.
    destruct (proj2 (proj2 (main_outcomes Demo.Template Demo.template_ParseFiles
                              Demo.template_Execute
                              {| main.addr := ":8080"; main.theme := "themes/plain";
                                 main.help := false |} ["site"])) address h H)
      as (_ & _ & Ha & Ht & Hd & _).
    repeat split; assumption.
Defined.
